(** * EmailSender: templated single and bulk e-mail dispatch

    A shallow embedding of [EmailSender.py] (class [EmailSender]) and the
    properties of its single-send and bulk-send operations.

    The Python code is effectful: it reads files, calls an SMTP transport,
    prints to standard output and raises exceptions, and its collaborators
    may draw random numbers.  The embedding threads an explicit [World]
    through a small state-and-exception monad [M].
    The third-party collaborators (Jinja2, the MJML converter, aiosmtplib,
    pathlib's [name]) are gathered in an environment record [Env]; the part
    of Jinja2 and of [str.format] that the properties talk about (literal
    text and named placeholders) is modelled concretely, the rest is left
    to the environment. *)

From Stdlib Require Import String Ascii ZArith List DecimalString Permutation.
From stdpp Require Import gmap strings list.

Local Open Scope string_scope.

(** ** Python exceptions *)

(** Instances of [Exception] that the code or its collaborators raise. *)
Inductive PyException : Type :=
  | FileNotFoundError (msg : string)
  | IsADirectoryError (msg : string)
  | ValueError (msg : string)
  | KeyError (key : string)
  | IndexError (msg : string)
  | TypeError (msg : string)
  | TemplateSyntaxError (msg : string)
  | SMTPException (msg : string)
  | OtherException (cls msg : string).

(** [BaseException]: either an [Exception] or [asyncio.CancelledError], which
    derives from [BaseException] only and is therefore not caught by
    [except Exception].  Process-level interrupts ([KeyboardInterrupt],
    [SystemExit]) are outside the model. *)
Inductive PyBaseException : Type :=
  | Exc (e : PyException)
  | CancelledError.

(** [str(e)] as used in the message printed by [send_email]. *)
Definition exn_str (e : PyException) : string :=
  match e with
  | FileNotFoundError m | IsADirectoryError m | ValueError m | IndexError m
  | TypeError m | TemplateSyntaxError m | SMTPException m => m
  | KeyError k => "'" ++ k ++ "'"
  | OtherException _ m => m
  end.

(** ** Values and render contexts *)

(** Context values: the spec restricts them to strings and numbers. *)
Inductive Value : Type :=
  | VStr (s : string)
  | VInt (n : Z).

(** [str(v)], which is also how [str.format] prints a value of these two
    types in a field without a format spec. *)
Definition py_str (v : Value) : string :=
  match v with
  | VStr s => s
  | VInt n => NilZero.string_of_int (Z.to_int n)
  end.

(** A [Dict[str, any]] of template variables. *)
Abbreviation Context := (gmap string Value).

(** ** Outcomes and the state-and-exception monad *)

Inductive Result (A : Type) : Type :=
  | Return (a : A)
  | Raise (e : PyBaseException).
Arguments Return {A} a.
Arguments Raise {A} e.


Inductive FsEntry : Type :=
  | File (content : string)
  | Dir.

(** The parts of a MIME message attached by [_create_message]. *)
Inductive Part : Type :=
  | HtmlPart (body : string)
  | AttachmentPart (filename payload : string).

(** The [MIMEMultipart("mixed")] message: its headers and parts. *)
Record Message : Type := {
  msg_subject : string;
  msg_to : string;
  msg_from : string;
  msg_cc : option string;
  msg_bcc : option string;
  msg_parts : list Part
}.

(** What the program can observe and change: the file system (only read),
    the messages handed to the transport so far, the lines printed, and the
    state of the random sources of the process (the generator of the
    [random] module, the entropy of the operating system) from which
    Jinja2's random built-ins and the converter may draw. *)
Record World : Type := {
  fs : gmap string FsEntry;
  smtp_calls : list Message;
  stdout : list string;
  rng : nat
}.

Definition M (A : Type) : Type := World -> Result A * World.

Definition ret {A} (a : A) : M A := fun w => (Return a, w).
Definition raise {A} (e : PyBaseException) : M A := fun w => (Raise e, w).
Definition bind {A B} (m : M A) (k : A -> M B) : M B :=
  fun w =>
    match m w with
    | (Return a, w') => k a w'
    | (Raise e, w') => (Raise e, w')
    end.
Definition lift {A} (r : Result A) : M A := fun w => (r, w).

(** [try: body  except Exception as e: handler(e)]: only instances of
    [Exception] are caught. *)
Definition try_except {A} (body : M A) (handler : PyException -> M A) : M A :=
  fun w =>
    match body w with
    | (Raise (Exc e), w') => handler e w'
    | other => other
    end.

Notation "'let*' x ':=' c1 'in' c2" := (bind c1 (fun x => c2))
  (at level 10, x name, c1 at level 100, c2 at level 200).
Notation "'run' c1 'then' c2" := (bind c1 (fun _ => c2))
  (at level 10, c1 at level 100, c2 at level 200).

(** [print(line)]. *)
Definition print (line : string) : M unit :=
  fun w => (Return tt,
            {| fs := fs w; smtp_calls := smtp_calls w;
               stdout := stdout w ++ [line]; rng := rng w |}).

(** ** The collaborators *)

(** The result object of [mjml_to_html]: [html_result["html"]] and
    [html_result.get("errors")]. *)
Record MjmlResult : Type := {
  html : string;
  errors : list string
}.

Record Env : Type := {
  (** [mjml.mjml_to_html]: given the markup and the state of the random
      sources, the result object or the exception raised, and the new
      state of the random sources. *)
  mjml_to_html : string -> nat -> (PyException + MjmlResult) * nat;
  (** Jinja2 on templates outside the modelled fragment; such a template
      may use the random built-ins ([random], [lipsum]), so the state of
      the random sources is read and updated. *)
  jinja_ext : string -> Context -> nat -> (PyException + string) * nat;
  (** [str.format] on format strings outside the modelled fragment. *)
  format_ext : string -> Context -> PyException + string;
  (** [await aiosmtplib.send]: given the messages handed over so far and
      the message to send, [None] for delivery or the exception raised at
      the await, which is the transport's own ([Exc]) or the cancellation
      of the awaiting task ([CancelledError]). *)
  smtp_send : list Message -> Message -> option PyBaseException;
  (** [Path(p).name]. *)
  path_name : string -> string
}.

Definition of_sum {A} (r : PyException + A) : Result A :=
  match r with
  | inl e => Raise (Exc e)
  | inr a => Return a
  end.

(** The world with the random sources in state [g]. *)
Definition with_rng (w : World) (g : nat) : World :=
  {| fs := fs w; smtp_calls := smtp_calls w; stdout := stdout w; rng := g |}.

(** A call of a collaborator that may draw from the random sources. *)
Definition draw {A} (f : nat -> (PyException + A) * nat) : M A :=
  fun w => let '(r, g) := f (rng w) in (of_sum r, with_rng w g).

(** The constructor arguments kept by [__init__]. *)
Record EmailSender : Type := {
  smtp_host : string;
  smtp_port : Z;
  username : string;
  password : string;
  use_tls : bool;
  from_email : string;
  from_name : option string
}.

(** [__init__]: [from_email or username]; an empty string is falsy. *)
Definition init (host : string) (port : Z) (user pass : string) (tls : bool)
    (from_email' from_name' : option string) : EmailSender :=
  {| smtp_host := host; smtp_port := port; username := user;
     password := pass; use_tls := tls;
     from_email := match from_email' with
                   | Some (String c s) => String c s
                   | _ => user
                   end;
     from_name := from_name' |}.

(** ** Strings *)

Definition is_char (c d : ascii) : bool := Ascii.eqb c d.

(** [c in s] for a one-character [c]. *)
Fixpoint contains_char (c : ascii) (s : string) : bool :=
  match s with
  | EmptyString => false
  | String d r => is_char d c || contains_char c r
  end.

Definition snoc_char (s : string) (c : ascii) : string :=
  s ++ String c EmptyString.

Definition is_digit (c : ascii) : bool :=
  let n := nat_of_ascii c in (48 <=? n)%nat && (n <=? 57)%nat.

Definition is_alpha_ (c : ascii) : bool :=
  let n := nat_of_ascii c in
  ((65 <=? n)%nat && (n <=? 90)%nat) || ((97 <=? n)%nat && (n <=? 122)%nat)
  || (n =? 95)%nat.

Fixpoint string_forallb (p : ascii -> bool) (s : string) : bool :=
  match s with
  | EmptyString => true
  | String c r => p c && string_forallb p r
  end.

Fixpoint drop_spaces (s : string) : string :=
  match s with
  | String c r => if is_char c " " then drop_spaces r else s
  | EmptyString => EmptyString
  end.

Fixpoint string_rev_onto (s acc : string) : string :=
  match s with
  | EmptyString => acc
  | String c r => string_rev_onto r (String c acc)
  end.

Definition string_rev (s : string) : string := string_rev_onto s EmptyString.

(** [s.strip(" ")]. *)
Definition strip_spaces (s : string) : string :=
  string_rev (drop_spaces (string_rev (drop_spaces s))).

(** [", ".join(l)]. *)
Fixpoint join (sep : string) (l : list string) : string :=
  match l with
  | [] => EmptyString
  | [x] => x
  | x :: r => x ++ sep ++ join sep r
  end.

(** ** The Jinja2 fragment: literal data and [{{ name }}] *)

Inductive JNode : Type :=
  | JData (c : ascii)
  | JName (x : string).

(** Words that Jinja2 does not read as a plain variable: keywords, literals,
    and the default globals and special names.  A [{{ word }}] with one of
    them is outside the fragment. *)
Definition jinja_reserved : list string :=
  ["true"; "false"; "True"; "False"; "none"; "None"; "not"; "and"; "or";
   "if"; "else"; "elif"; "in"; "is"; "for"; "endfor"; "endif"; "block";
   "endblock"; "extends"; "include"; "import"; "from"; "macro"; "endmacro";
   "call"; "endcall"; "filter"; "endfilter"; "set"; "endset"; "with";
   "endwith"; "without"; "context"; "recursive"; "ignore"; "missing";
   "scoped"; "required"; "raw"; "endraw"; "autoescape"; "endautoescape";
   "do"; "continue"; "break"; "trans"; "endtrans"; "pluralize"; "as";
   "loop"; "self"; "super"; "varargs"; "kwargs"; "caller"; "range"; "dict";
   "lipsum"; "cycler"; "joiner"; "namespace"; "_"; "gettext"; "ngettext"].

Definition is_identifier (s : string) : bool :=
  match s with
  | EmptyString => false
  | String c r =>
      is_alpha_ c && string_forallb (fun d => is_alpha_ d || is_digit d) r
  end.

(** The text between [{{] and [}}] as a variable name, if it is one. *)
Definition jinja_name (inner : string) : option string :=
  let x := strip_spaces inner in
  if is_identifier x && negb (bool_decide (x ∈ jinja_reserved))
  then Some x else None.

(** The lexer and parser of [Template(source)] on the fragment.  [expr] is
    [None] in template data and [Some acc] inside a [{{ ... }}] whose text
    so far is [acc].  [None] as a result means that the source is outside
    the fragment: a block tag [{%], a comment [{#], an expression that is
    not a plain name, an unclosed [{{], or a carriage return (Jinja2
    rewrites line endings).  One trailing newline is dropped, as Jinja2 does
    with [keep_trailing_newline] off. *)
Fixpoint jinja_parse (s : string) (expr : option string)
    : option (list JNode) :=
  match expr with
  | None =>
      match s with
      | EmptyString => Some []
      | String c r =>
          if is_char c "{" then
            match r with
            | String d r' =>
                if is_char d "{" then jinja_parse r' (Some EmptyString)
                else if is_char d "%" || is_char d "#" then None
                else cons (JData c) <$> jinja_parse r None
            | EmptyString => Some [JData c]
            end
          else if is_char c "013" then None
          else if is_char c "010" then
            match r with
            | EmptyString => Some []
            | _ => cons (JData c) <$> jinja_parse r None
            end
          else cons (JData c) <$> jinja_parse r None
      end
  | Some acc =>
      match s with
      | EmptyString => None
      | String c r =>
          if is_char c "}" then
            match r with
            | String d r' =>
                if is_char d "}" then
                  match jinja_name acc with
                  | Some x => cons (JName x) <$> jinja_parse r' None
                  | None => None
                  end
                else jinja_parse r (Some (snoc_char acc c))
            | EmptyString => None
            end
          else jinja_parse r (Some (snoc_char acc c))
      end
  end.

(** Rendering of one node: data is copied; a name is looked up in the
    context and printed with [str]; Jinja2's default [Undefined] prints as
    the empty string. *)
Definition jinja_node (ctx : Context) (n : JNode) : string :=
  match n with
  | JData c => String c EmptyString
  | JName x =>
      match ctx !! x with
      | Some v => py_str v
      | None => EmptyString
      end
  end.

Fixpoint jinja_nodes (ctx : Context) (ns : list JNode) : string :=
  match ns with
  | [] => EmptyString
  | n :: r => jinja_node ctx n ++ jinja_nodes ctx r
  end.

(** [Template(source).render] with the variables as keyword arguments.
    [render] is a method, so a variable called [self] clashes with its
    first parameter. *)
Definition jinja_render (env : Env) (source : string) (variables : Context)
    : M string :=
  match jinja_parse source None with
  | Some nodes =>
      match variables !! "self" with
      | Some _ =>
          raise (Exc (TypeError
            "Template.render() got multiple values for argument 'self'"))
      | None => ret (jinja_nodes variables nodes)
      end
  | None => draw (jinja_ext env source variables)
  end.

(** The variable names of the placeholders of a template of the fragment. *)
Definition jinja_placeholders (ns : list JNode) : list string :=
  omap (fun n => match n with JName x => Some x | JData _ => None end) ns.

(** ** The [str.format] fragment: literal text, [{{], [}}] and [{name}] *)

(** [str.format] reads its format string from left to right and stops at
    the first error, so the tokens form a stream that ends normally
    ([FEnd]), at a malformed brace ([FError]), or at a replacement field
    outside the fragment ([FExt]: a conversion [!], a format spec [:],
    attribute or index access, a nested brace, a numeric index, or a
    non-ASCII name). *)
Inductive FmtTokens : Type :=
  | FEnd
  | FLit (c : ascii) (rest : FmtTokens)
  | FField (name : string) (rest : FmtTokens)
  | FError (e : PyException)
  | FExt.

Definition fmt_special (c : ascii) : bool :=
  is_char c "{" || is_char c "!" || is_char c ":" || is_char c "."
  || is_char c "[" || is_char c "]" || (128 <=? nat_of_ascii c)%nat.

(** A closed field [{name}] followed by the tokens [rest].  With keyword
    arguments only, the empty name is automatic numbering from an empty
    tuple of positional arguments. *)
Definition fmt_field (name : string) (rest : FmtTokens) : FmtTokens :=
  match name with
  | EmptyString =>
      FError (IndexError
        "Replacement index 0 out of range for positional args tuple")
  | _ => if string_forallb is_digit name then FExt else FField name rest
  end.

Fixpoint fmt_lex (s : string) (field : option string) : FmtTokens :=
  match field with
  | None =>
      match s with
      | EmptyString => FEnd
      | String c r =>
          if is_char c "{" then
            match r with
            | String d r' =>
                if is_char d "{" then FLit "{" (fmt_lex r' None)
                else fmt_lex r (Some EmptyString)
            | EmptyString =>
                FError (ValueError "Single '{' encountered in format string")
            end
          else if is_char c "}" then
            match r with
            | String d r' =>
                if is_char d "}" then FLit "}" (fmt_lex r' None)
                else FError
                       (ValueError "Single '}' encountered in format string")
            | EmptyString =>
                FError (ValueError "Single '}' encountered in format string")
            end
          else FLit c (fmt_lex r None)
      end
  | Some acc =>
      match s with
      | EmptyString => FError (ValueError "expected '}' before end of string")
      | String c r =>
          if is_char c "}" then fmt_field acc (fmt_lex r None)
          else if fmt_special c then FExt
          else fmt_lex r (Some (snoc_char acc c))
      end
  end.

(** Evaluation of the token stream against the keyword arguments; [None]
    when the stream reaches a field outside the fragment. *)
Fixpoint fmt_eval (t : FmtTokens) (kwargs : Context)
    : option (Result string) :=
  match t with
  | FEnd => Some (Return EmptyString)
  | FLit c rest =>
      match fmt_eval rest kwargs with
      | Some (Return s) => Some (Return (String c s))
      | other => other
      end
  | FField name rest =>
      match kwargs !! name with
      | None => Some (Raise (Exc (KeyError name)))
      | Some v =>
          match fmt_eval rest kwargs with
          | Some (Return s) => Some (Return (py_str v ++ s))
          | other => other
          end
      end
  | FError e => Some (Raise (Exc e))
  | FExt => None
  end.

(** [fmt.format] with [kwargs] as keyword arguments. *)
Definition str_format (env : Env) (fmt : string) (kwargs : Context)
    : Result string :=
  match fmt_eval (fmt_lex fmt None) kwargs with
  | Some r => r
  | None => of_sum (format_ext env fmt kwargs)
  end.

(** The names of the replacement fields read before the stream ends. *)
Fixpoint fmt_fields (t : FmtTokens) : list string :=
  match t with
  | FLit _ rest => fmt_fields rest
  | FField name rest => name :: fmt_fields rest
  | FEnd | FError _ | FExt => []
  end.

(** ** File-system primitives *)

(** [Path(p).exists()]. *)
Definition path_exists (p : string) : M bool :=
  fun w => (Return (bool_decide (is_Some (fs w !! p))), w).

(** [open(p, mode)] followed by [f.read()]. *)
Definition read_file (p : string) : M string :=
  fun w =>
    match fs w !! p with
    | Some (File content) => (Return content, w)
    | Some Dir =>
        (Raise (Exc (IsADirectoryError
           ("[Errno 21] Is a directory: '" ++ p ++ "'"))), w)
    | None =>
        (Raise (Exc (FileNotFoundError
           ("[Errno 2] No such file or directory: '" ++ p ++ "'"))), w)
    end.

(** [await aiosmtplib.send(msg, ...)]: the call is recorded, then the
    transport delivers or raises. *)
Definition aiosmtplib_send (env : Env) (msg : Message) : M unit :=
  fun w =>
    let w' := {| fs := fs w; smtp_calls := smtp_calls w ++ [msg];
                 stdout := stdout w; rng := rng w |} in
    match smtp_send env (smtp_calls w) msg with
    | None => (Return tt, w')
    | Some e => (Raise e, w')
    end.

(** ** Recipients and bulk results *)

(** A recipient dictionary, restricted to the two keys the code reads;
    [None] is an absent key. *)
Record RecipientRecord : Type := {
  rec_email : option string;
  rec_variables : option Context
}.

(** [{"success": [...], "failed": [...]}]. *)
Record BulkResult : Type := {
  success : list string;
  failed : list string
}.

(** ** The methods of [EmailSender] *)

Section Methods.

Variable env : Env.
Variable self : EmailSender.

Definition _load_mjml_template (template_path : string) : M string :=
  let* found := path_exists template_path in
  if negb found
  then raise (Exc (FileNotFoundError
                     ("Template no encontrado: " ++ template_path)))
  else read_file template_path.

(** Each diagnostic of the converter is kept as its printed form. *)
Definition _render_template (mjml_content : string) (variables : Context)
    : M string :=
  let* mjml_rendered := jinja_render env mjml_content variables in
  let* html_result := draw (mjml_to_html env mjml_rendered) in
  match errors html_result with
  | _ :: _ =>
      raise (Exc (ValueError
        ("Errores en MJML: [" ++ join ", " (errors html_result) ++ "]")))
  | [] => ret (html html_result)
  end.

(** [msg.attach(part)] on the message being built. *)
Definition attach (msg : Message) (part : Part) : Message :=
  {| msg_subject := msg_subject msg; msg_to := msg_to msg;
     msg_from := msg_from msg; msg_cc := msg_cc msg; msg_bcc := msg_bcc msg;
     msg_parts := msg_parts msg ++ [part] |}.

(** The message is mutated in place in Python; here the updated message is
    returned.  The payload is the file's content, base64-encoded by the
    library when the message is serialised. *)
Definition _attach_file (msg : Message) (file_path : string) : M Message :=
  let* found := path_exists file_path in
  if negb found
  then raise (Exc (FileNotFoundError
                     ("Archivo no encontrado: " ++ file_path)))
  else
    let* payload := read_file file_path in
    ret (attach msg (AttachmentPart (path_name env file_path) payload)).

Fixpoint attach_files (msg : Message) (attachments : list string)
    : M Message :=
  match attachments with
  | [] => ret msg
  | attachment_path :: rest =>
      let* msg' := _attach_file msg attachment_path in
      attach_files msg' rest
  end.

(** A header built from an optional list: [if cc: msg["Cc"] = ", ".join(cc)];
    [None] and the empty list are both falsy. *)
Definition address_header (l : option (list string)) : option string :=
  match l with
  | Some (a :: r) => Some (join ", " (a :: r))
  | _ => None
  end.

Definition _create_message (to_email subject html_content : string)
    (attachments cc bcc : option (list string)) : M Message :=
  let msg :=
    {| msg_subject := subject;
       msg_to := to_email;
       msg_from :=
         match from_name self with
         | Some (String c n) =>
             String c n ++ " <" ++ from_email self ++ ">"
         | _ => from_email self
         end;
       msg_cc := address_header cc;
       msg_bcc := address_header bcc;
       msg_parts := [HtmlPart html_content] |} in
  match attachments with
  | Some (a :: r) => attach_files msg (a :: r)
  | _ => ret msg
  end.

(** The body of the [try] block of [send_email]. *)
Definition send_email_body (to_email subject template_path : string)
    (variables : Context) (attachments cc bcc : option (list string))
    : M bool :=
  let* mjml_content := _load_mjml_template template_path in
  let* html_content := _render_template mjml_content variables in
  let* msg :=
    _create_message to_email subject html_content attachments cc bcc in
  run aiosmtplib_send env msg then
  ret true.

Definition send_email (to_email subject template_path : string)
    (variables : Context) (attachments cc bcc : option (list string))
    : M bool :=
  try_except
    (send_email_body to_email subject template_path variables
       attachments cc bcc)
    (fun e =>
       run print ("Error al enviar correo a " ++ to_email ++ ": "
                  ++ exn_str e) then
       ret false).

(** The first two statements of [send_email]: load the template file, then
    render it.  This is the spec's [render(templateSource, context)]. *)
Definition load_and_render (template_path : string) (variables : Context)
    : M string :=
  let* mjml_content := _load_mjml_template template_path in
  _render_template mjml_content variables.

(** *** Bulk send *)

(** [subject.format( **variables) if "{" in subject else subject]. *)
Definition rendered_subject (subject : string) (variables : Context)
    : Result string :=
  if contains_char "{" subject
  then str_format env subject variables
  else Return subject.

(** [recipient.get("variables", {})]. *)
Definition get_variables (recipient : RecipientRecord) : Context :=
  default ∅ (rec_variables recipient).

(** The first loop of [send_bulk_emails]: one coroutine per recipient,
    created but not yet run; [tasks] is the list built so far. *)
Fixpoint build_tasks (recipients : list RecipientRecord)
    (subject template_path : string) (attachments : option (list string))
    (tasks : list (string * M bool)) : Result (list (string * M bool)) :=
  match recipients with
  | [] => Return tasks
  | recipient :: rest =>
      match rec_email recipient with
      | None => Raise (Exc (KeyError "email"))
      | Some email =>
          let variables := get_variables recipient in
          match rendered_subject subject variables with
          | Raise e => Raise e
          | Return subject' =>
              let task :=
                send_email email subject' template_path variables
                  attachments None None in
              build_tasks rest subject template_path attachments
                (tasks ++ [(email, task)])
          end
      end
  end.

End Methods.

(** [await asyncio.gather( *tasks, return_exceptions=True)]: every task is
    run and its return value or the exception it raised is collected; an
    exception of one task stops neither the others nor the caller.  The
    tasks are started in list order and are taken to completion in that
    order: the order in which pending transport calls complete (and in
    which their error lines are printed) is not modelled, the transport
    sees the calls in the order they were made. *)
Fixpoint gather {A} (tasks : list (M A)) : M (list (Result A)) :=
  match tasks with
  | [] => ret []
  | task :: rest =>
      fun w =>
        let '(result, w1) := task w in
        match gather rest w1 with
        | (Return results, w2) => (Return (result :: results), w2)
        | (Raise e, w2) => (Raise e, w2)
        end
  end.

(** [result is True]. *)
Definition is_True (result : Result bool) : bool :=
  match result with
  | Return true => true
  | _ => false
  end.

(** The second loop of [send_bulk_emails], over [zip(tasks, results)], with
    the two lists built so far. *)
Fixpoint classify {T} (pairs : list ((string * T) * Result bool))
    (success failed : list string) : BulkResult :=
  match pairs with
  | [] => {| success := success; failed := failed |}
  | ((email, _), result) :: rest =>
      if is_True result
      then classify rest (success ++ [email]) failed
      else classify rest success (failed ++ [email])
  end.

(** [send_bulk_emails] from the [gather] on. *)
Definition dispatch (tasks : list (string * M bool)) : M BulkResult :=
  let* results := gather (map snd tasks) in
  ret (classify (zip tasks results) [] []).

Definition send_bulk_emails (env : Env) (self : EmailSender)
    (recipients : list RecipientRecord) (subject template_path : string)
    (attachments : option (list string)) : M BulkResult :=
  let* tasks :=
    lift (build_tasks env self recipients subject template_path
            attachments []) in
  dispatch tasks.

(** ** Notions used in the statements *)

(** A computation that never raises [CancelledError]. *)
Definition raises_only_exceptions {A} (m : M A) : Prop :=
  forall w w', m w <> (Raise CancelledError, w').

(** The addresses whose outcome is [True], and the others, in input order. *)
Definition delivered_of {T} (pairs : list ((string * T) * Result bool))
    : list string :=
  (filter (fun p => is_True p.2) pairs).*1.*1.

Definition failed_of {T} (pairs : list ((string * T) * Result bool))
    : list string :=
  (filter (fun p => ¬ is_True p.2) pairs).*1.*1.

(** The addresses of the records that have one. *)
Definition addresses (recipients : list RecipientRecord) : list string :=
  omap rec_email recipients.

(** The task that [build_tasks] creates for one recipient. *)
Definition task_of (env : Env) (self : EmailSender)
    (subject template_path : string)
    (attachments : option (list string)) (recipient : RecipientRecord)
    (task : string * M bool) : Prop :=
  exists email subject',
    rec_email recipient = Some email /\
    rendered_subject env subject (get_variables recipient)
      = Return subject' /\
    task = (email,
            send_email env self email subject' template_path
              (get_variables recipient) attachments None None).

(** The text of a token stream with the values of [kwargs] in place of
    the fields. *)
Fixpoint fmt_subst (t : FmtTokens) (kwargs : Context) : string :=
  match t with
  | FLit c rest => String c (fmt_subst rest kwargs)
  | FField name rest =>
      match kwargs !! name with
      | Some v => py_str v
      | None => EmptyString
      end ++ fmt_subst rest kwargs
  | FEnd | FError _ | FExt => EmptyString
  end.

(** The token stream was read to the end of the format string: it has no
    malformed brace and no field outside the fragment. *)
Fixpoint fmt_complete (t : FmtTokens) : bool :=
  match t with
  | FEnd => true
  | FLit _ rest | FField _ rest => fmt_complete rest
  | FError _ | FExt => false
  end.


(** [paths] are regular files of the world, with [contents]. *)
Definition holds_files (w : World) (paths contents : list string) : Prop :=
  Forall2 (fun p c => fs w !! p = Some (File c)) paths contents.

(** The message that [_create_message] builds when its attachments hold
    [contents]: the headers, the HTML part, then one part per attachment in
    the order of the list. *)
Definition message_with (env : Env) (self : EmailSender)
    (to_email subject html_content : string)
    (attachments cc bcc : option (list string)) (contents : list string)
    : Message :=
  {| msg_subject := subject;
     msg_to := to_email;
     msg_from :=
       match from_name self with
       | Some (String c n) => String c n ++ " <" ++ from_email self ++ ">"
       | _ => from_email self
       end;
     msg_cc := address_header cc;
     msg_bcc := address_header bcc;
     msg_parts :=
       HtmlPart html_content
       :: zip_with (fun p c => AttachmentPart (path_name env p) c)
            (default [] attachments) contents |}.

(** [msg] after [parts] have been attached one after the other. *)
Definition add_parts (msg : Message) (parts : list Part) : Message :=
  {| msg_subject := msg_subject msg; msg_to := msg_to msg;
     msg_from := msg_from msg; msg_cc := msg_cc msg; msg_bcc := msg_bcc msg;
     msg_parts := msg_parts msg ++ parts |}.

(** The world after [msg] has been handed to the transport. *)
Definition with_call (w : World) (msg : Message) : World :=
  {| fs := fs w; smtp_calls := smtp_calls w ++ [msg]; stdout := stdout w;
     rng := rng w |}.

(** The world after [line] has been printed. *)
Definition with_line (w : World) (line : string) : World :=
  {| fs := fs w; smtp_calls := smtp_calls w; stdout := stdout w ++ [line];
     rng := rng w |}.

(** The world left by [tasks] run one after the other from [w]. *)
Fixpoint world_after {A} (tasks : list (M A)) (w : World) : World :=
  match tasks with
  | [] => w
  | task :: rest => world_after rest (snd (task w))
  end.


(** The line that [send_email] prints for the exception [e]. *)
Definition error_line (to_email : string) (e : PyException) : string :=
  "Error al enviar correo a " ++ to_email ++ ": " ++ exn_str e.

(** A task of [send_bulk_emails]: a [send_email] to the task's address. *)
Definition send_task (env : Env) (self : EmailSender) (template_path : string)
    (attachments : option (list string)) (t : string * M bool) : Prop :=
  exists subject variables,
    t.2 = send_email env self t.1 subject template_path variables
            attachments None None.


(** ** Fixtures *)

Module Fixtures.

(** A converter that accepts every non-empty document unchanged, a
    transport that rejects one subject line, and no support outside the
    modelled fragments. *)
Definition env : Env :=
  {| mjml_to_html := fun s g =>
       (match s with
        | EmptyString =>
            inr {| html := EmptyString; errors := ["empty document"] |}
        | _ => inr {| html := s; errors := [] |}
        end, g);
     jinja_ext := fun _ _ g =>
       (inl (OtherException "NotModelled" "jinja2"), g);
     format_ext := fun _ _ => inl (OtherException "NotModelled" "format");
     smtp_send := fun _ msg =>
       if String.eqb (msg_subject msg) "Status - B"
       then Some (Exc (SMTPException "550 mailbox unavailable"))
       else None;
     path_name := fun p => p |}.



(** [env] with a transport call during which the awaiting task is
    cancelled. *)
Definition env_cancelled : Env :=
  {| mjml_to_html := mjml_to_html env;
     jinja_ext := jinja_ext env;
     format_ext := format_ext env;
     smtp_send := fun _ _ => Some CancelledError;
     path_name := path_name env |}.

Definition sender : EmailSender :=
  init "smtp.example.com" 587 "robot@example.com" "secret" true
    None (Some "Robot").

Definition template : string :=
  "<mjml><mj-body><mj-section><mj-column>"
  ++ "<mj-text>Hello {{ name }}</mj-text>"
  ++ "</mj-column></mj-section></mj-body></mjml>".

(** [template] with nothing in the place of [name]. *)
Definition rendered : string :=
  "<mjml><mj-body><mj-section><mj-column>"
  ++ "<mj-text>Hello </mj-text>"
  ++ "</mj-column></mj-section></mj-body></mjml>".

Definition world : World :=
  {| fs := {[ "templates/status.mjml" := File template;
              "docs" := Dir;
              "docs/terms.pdf" := File "%PDF" ]};
     smtp_calls := [];
     stdout := [];
     rng := 0 |}.

Definition recipient (email name : string) : RecipientRecord :=
  {| rec_email := Some email;
     rec_variables := Some {[ "name" := VStr name ]} |}.

(** Three tasks, the second of which lets an exception escape. *)
Definition tasks : list (string * M bool) :=
  [("a@example.com", ret true);
   ("b@example.com", raise CancelledError);
   ("c@example.com", ret false)].

(** The spec's three recipients A, B and C. *)
Definition three : list RecipientRecord :=
  [recipient "a@example.com" "A"; recipient "b@example.com" "B";
   recipient "c@example.com" "C"].



(** The second record has no [name] for the subject. *)
Definition no_name : list RecipientRecord :=
  [recipient "a@example.com" "A";
   {| rec_email := Some "b@example.com"; rec_variables := Some ∅ |};
   recipient "c@example.com" "C"].


End Fixtures.

(** * Properties *)

(** ** The monad *)

Lemma bind_Return {A B} (m : M A) (k : A -> M B) w a w' :
  m w = (Return a, w') -> bind m k w = k a w'.
Proof. intros H. unfold bind. now rewrite H. Qed.

Lemma bind_Raise {A B} (m : M A) (k : A -> M B) w e w' :
  m w = (Raise e, w') -> bind m k w = (Raise e, w').
Proof. intros H. unfold bind. now rewrite H. Qed.

Lemma bind_inv_Return {A B} (m : M A) (k : A -> M B) w b w' :
  bind m k w = (Return b, w') ->
  exists a w1, m w = (Return a, w1) /\ k a w1 = (Return b, w').
Proof.
  unfold bind. destruct (m w) as [[a|e] w1]; intros H.
  - now exists a, w1.
  - discriminate.
Qed.

Lemma roe_ret {A} (a : A) : raises_only_exceptions (ret a).
Proof. intros w w'. unfold ret. discriminate. Qed.

Lemma roe_raise {A} (e : PyException) :
  raises_only_exceptions (@raise A (Exc e)).
Proof. intros w w'. unfold raise. discriminate. Qed.

Lemma roe_bind {A B} (m : M A) (k : A -> M B) :
  raises_only_exceptions m -> (forall a, raises_only_exceptions (k a)) ->
  raises_only_exceptions (bind m k).
Proof.
  intros Hm Hk w w'. unfold bind.
  destruct (m w) as [[a|e] w1] eqn:E.
  - apply Hk.
  - intros Heq. inversion Heq; subst. now apply (Hm w w').
Qed.

Lemma roe_path_exists p : raises_only_exceptions (path_exists p).
Proof. intros w w'. unfold path_exists. discriminate. Qed.

Lemma roe_read_file p : raises_only_exceptions (read_file p).
Proof.
  intros w w'. unfold read_file.
  destruct (fs w !! p) as [[c|]|]; discriminate.
Qed.

Lemma with_rng_same w : with_rng w (rng w) = w.
Proof. now destruct w. Qed.

Lemma draw_eq {A} (f : nat -> (PyException + A) * nat) w :
  draw f w = (of_sum (fst (f (rng w))), with_rng w (snd (f (rng w)))).
Proof. unfold draw. now destruct (f (rng w)). Qed.

Lemma roe_draw {A} (f : nat -> (PyException + A) * nat) :
  raises_only_exceptions (draw f).
Proof.
  intros w w'. rewrite draw_eq. destruct (fst (f (rng w))); discriminate.
Qed.

(** Jinja2 changes nothing but the state of the random sources, and on the
    fragment not even that. *)
Lemma jinja_render_fragment env src nodes (ctx : Context) w :
  jinja_parse src None = Some nodes -> ctx !! "self" = None ->
  jinja_render env src ctx w = (Return (jinja_nodes ctx nodes), w).
Proof. intros Hp Hs. unfold jinja_render. now rewrite Hp, Hs. Qed.

Lemma jinja_render_rng env src (ctx : Context) w :
  exists g, snd (jinja_render env src ctx w) = with_rng w g.
Proof.
  unfold jinja_render. destruct (jinja_parse src None).
  - exists (rng w). rewrite with_rng_same.
    destruct (ctx !! "self"); reflexivity.
  - rewrite draw_eq. eauto.
Qed.

Lemma roe_jinja_render env src (ctx : Context) :
  raises_only_exceptions (jinja_render env src ctx).
Proof.
  unfold jinja_render. destruct (jinja_parse src None).
  - destruct (ctx !! "self"); [apply roe_raise|apply roe_ret].
  - apply roe_draw.
Qed.


(** ** Loading the template and building the message *)

Section MessageBuilder.

Variable env : Env.
Variable self : EmailSender.

Lemma load_missing p w :
  fs w !! p = None ->
  _load_mjml_template p w =
    (Raise (Exc (FileNotFoundError ("Template no encontrado: " ++ p))), w).
Proof.
  intros H. unfold _load_mjml_template, bind, path_exists.
  rewrite H. rewrite bool_decide_eq_false_2; [reflexivity|].
  intros [x Hx]. discriminate.
Qed.

Lemma load_present p w :
  is_Some (fs w !! p) -> _load_mjml_template p w = read_file p w.
Proof.
  intros H. unfold _load_mjml_template, bind, path_exists.
  now rewrite bool_decide_eq_true_2.
Qed.

Lemma load_file p c w :
  fs w !! p = Some (File c) -> _load_mjml_template p w = (Return c, w).
Proof.
  intros H. rewrite load_present by (rewrite H; eauto).
  unfold read_file. now rewrite H.
Qed.

Lemma load_outcome p w :
  (exists c, fs w !! p = Some (File c) /\
             _load_mjml_template p w = (Return c, w)) \/
  (exists e, _load_mjml_template p w = (Raise (Exc e), w)).
Proof.
  destruct (fs w !! p) as [[c|]|] eqn:E.
  - left. exists c. split; [reflexivity|].
    rewrite load_present by (rewrite E; eauto).
    unfold read_file. now rewrite E.
  - right. eexists. rewrite load_present by (rewrite E; eauto).
    unfold read_file. now rewrite E.
  - right. eexists. now apply load_missing.
Qed.

Lemma attach_file_missing msg p w :
  fs w !! p = None ->
  _attach_file env msg p w =
    (Raise (Exc (FileNotFoundError ("Archivo no encontrado: " ++ p))), w).
Proof.
  intros H. unfold _attach_file, bind, path_exists.
  rewrite H. rewrite bool_decide_eq_false_2; [reflexivity|].
  intros [x Hx]. discriminate.
Qed.

Lemma attach_file_Return msg p w msg' w' :
  _attach_file env msg p w = (Return msg', w') ->
  w' = w /\ exists c, fs w !! p = Some (File c).
Proof.
  destruct (fs w !! p) as [entry|] eqn:E.
  - unfold _attach_file, bind, path_exists.
    rewrite bool_decide_eq_true_2 by (rewrite E; eauto). simpl.
    unfold read_file. rewrite E.
    destruct entry; intros H; inversion H; eauto.
  - rewrite attach_file_missing by assumption. discriminate.
Qed.

Lemma path_exists_file p c w :
  fs w !! p = Some (File c) -> path_exists p w = (Return true, w).
Proof.
  intros H. unfold path_exists.
  rewrite bool_decide_eq_true_2; [reflexivity|]. rewrite H. eauto.
Qed.

Lemma attach_file_file msg p c w :
  fs w !! p = Some (File c) ->
  _attach_file env msg p w =
    (Return (attach msg (AttachmentPart (path_name env p) c)), w).
Proof.
  intros H. unfold _attach_file, bind.
  rewrite (path_exists_file p c w H). simpl.
  unfold read_file. rewrite H. reflexivity.
Qed.

Lemma attach_file_Return_eq msg p w msg' w' :
  _attach_file env msg p w = (Return msg', w') ->
  w' = w /\ exists c,
    fs w !! p = Some (File c) /\
    msg' = attach msg (AttachmentPart (path_name env p) c).
Proof.
  intros H.
  destruct (attach_file_Return msg p w msg' w' H) as [-> [c Hc]].
  split; [reflexivity|]. exists c. split; [exact Hc|].
  rewrite (attach_file_file msg p c w Hc) in H. now inversion H.
Qed.

(** [_attach_file] leaves the world as it is, whatever its outcome. *)
Lemma attach_file_world msg p w : snd (_attach_file env msg p w) = w.
Proof.
  unfold _attach_file, bind, path_exists. simpl.
  destruct (negb _); [reflexivity|].
  unfold read_file. destruct (fs w !! p) as [[c|]|]; reflexivity.
Qed.

Lemma attach_files_world l : forall msg w,
  snd (attach_files env msg l w) = w.
Proof.
  induction l as [|p l IH]; intros msg w; simpl; [reflexivity|].
  unfold bind. pose proof (attach_file_world msg p w) as Hw.
  destruct (_attach_file env msg p w) as [[m|e] w1]; simpl in Hw; subst w1.
  - apply IH.
  - reflexivity.
Qed.

Lemma add_parts_nil msg : add_parts msg [] = msg.
Proof. destruct msg. unfold add_parts. simpl. now rewrite app_nil_r. Qed.

Lemma add_parts_attach msg part parts :
  add_parts (attach msg part) parts = add_parts msg (part :: parts).
Proof. unfold add_parts, attach. simpl. now rewrite <- app_assoc. Qed.

Lemma attach_files_files l : forall contents msg w,
  holds_files w l contents ->
  attach_files env msg l w =
    (Return (add_parts msg
               (zip_with (fun p c => AttachmentPart (path_name env p) c)
                  l contents)), w).
Proof.
  induction l as [|p l IH]; intros contents msg w H.
  - inversion H; subst. simpl. unfold ret. now rewrite add_parts_nil.
  - inversion H as [|? c ? cs Hp Hl]; subst. simpl.
    rewrite (bind_Return _ _ _ _ _ (attach_file_file msg p c w Hp)).
    rewrite (IH cs _ w Hl). now rewrite add_parts_attach.
Qed.

Lemma attach_files_Return_eq l : forall msg w msg' w',
  attach_files env msg l w = (Return msg', w') ->
  w' = w /\ exists contents,
    holds_files w l contents /\
    msg' = add_parts msg
             (zip_with (fun p c => AttachmentPart (path_name env p) c)
                l contents).
Proof.
  induction l as [|p l IH]; intros msg w msg' w' H; simpl in H.
  - inversion H; subst. split; [reflexivity|]. exists [].
    split; [constructor|]. simpl. now rewrite add_parts_nil.
  - apply bind_inv_Return in H as (m1 & w1 & H1 & H2).
    apply attach_file_Return_eq in H1 as (-> & c & Hc & ->).
    apply IH in H2 as (-> & cs & Hcs & ->).
    split; [reflexivity|]. exists (c :: cs).
    split; [now constructor|]. simpl. now rewrite add_parts_attach.
Qed.

(** The first attachment that does not exist stops the loop. *)
Lemma attach_files_first_missing l1 : forall contents msg w p l2,
  holds_files w l1 contents ->
  fs w !! p = None ->
  attach_files env msg (l1 ++ p :: l2) w =
    (Raise (Exc (FileNotFoundError ("Archivo no encontrado: " ++ p))), w).
Proof.
  induction l1 as [|q l1 IH]; intros contents msg w p l2 H Hp.
  - simpl. erewrite bind_Raise; [reflexivity|].
    now apply attach_file_missing.
  - inversion H as [|? c ? cs Hq Hl]; subst. simpl.
    rewrite (bind_Return _ _ _ _ _ (attach_file_file msg q c w Hq)).
    now apply (IH cs).
Qed.

Lemma create_message_world to_email subject body atts cc bcc w :
  snd (_create_message env self to_email subject body atts cc bcc w) = w.
Proof.
  unfold _create_message. destruct atts as [[|a r]|]; try reflexivity.
  apply attach_files_world.
Qed.

(** What [_create_message] returns, and when. *)
Lemma create_message_spec to_email subject body atts cc bcc w msg w' :
  _create_message env self to_email subject body atts cc bcc w
    = (Return msg, w') <->
  w' = w /\ exists contents,
    holds_files w (default [] atts) contents /\
    msg = message_with env self to_email subject body atts cc bcc contents.
Proof.
  unfold _create_message, message_with.
  set (m0 := {| msg_subject := subject |}).
  destruct atts as [[|a r]|]; simpl.
  - split.
    + intros H. inversion H; subst. split; [reflexivity|]. exists [].
      split; [constructor|reflexivity].
    + intros (-> & contents & Hc & ->). inversion Hc; subst. reflexivity.
  - split.
    + intros H.
      apply (attach_files_Return_eq (a :: r)) in H as (-> & cs & Hcs & ->).
      split; [reflexivity|]. exists cs. split; [exact Hcs|reflexivity].
    + intros (-> & cs & Hcs & ->).
      exact (attach_files_files (a :: r) cs m0 w Hcs).
  - split.
    + intros H. inversion H; subst. split; [reflexivity|]. exists [].
      split; [constructor|reflexivity].
    + intros (-> & contents & Hc & ->). inversion Hc; subst. reflexivity.
Qed.

Lemma create_message_outcome to_email subject body atts cc bcc w :
  (exists contents,
     holds_files w (default [] atts) contents /\
     _create_message env self to_email subject body atts cc bcc w =
       (Return (message_with env self to_email subject body atts cc bcc
                  contents), w)) \/
  (exists e,
     _create_message env self to_email subject body atts cc bcc w
       = (Raise (Exc e), w)).
Proof.
  pose proof (create_message_world to_email subject body atts cc bcc w)
    as Hw.
  destruct (_create_message env self to_email subject body atts cc bcc w)
    as [[msg|[e|]] w1] eqn:E; simpl in Hw; subst w1.
  - left. apply create_message_spec in E as (_ & contents & Hc & ->). eauto.
  - right. eauto.
  - exfalso. revert E. unfold _create_message.
    assert (Hattach : forall l m,
              raises_only_exceptions (attach_files env m l)).
    { induction l as [|p l IH]; intros m; simpl.
      - apply roe_ret.
      - apply roe_bind; [|auto].
        unfold _attach_file. apply roe_bind; [apply roe_path_exists|].
        intros found. destruct (negb found); [apply roe_raise|].
        apply roe_bind; [apply roe_read_file|]. intros; apply roe_ret. }
    destruct atts as [[|a r]|]; try discriminate. apply Hattach.
Qed.

End MessageBuilder.

(** ** Rendering and the single send *)

Section SingleSend.

Variable env : Env.
Variable self : EmailSender.

(** [_render_template] either returns the converted body or raises an
    [Exception]; either way it changes nothing but the state of the random
    sources. *)
Lemma render_template_outcome content (vars : Context) w :
  (exists rendered res g1 g2,
     jinja_render env content vars w = (Return rendered, with_rng w g1) /\
     mjml_to_html env rendered g1 = (inr res, g2) /\ errors res = [] /\
     _render_template env content vars w
       = (Return (html res), with_rng w g2)) \/
  (exists e g,
     _render_template env content vars w = (Raise (Exc e), with_rng w g)).
Proof.
  unfold _render_template, bind.
  destruct (jinja_render_rng env content vars w) as [g1 Hg1].
  pose proof (roe_jinja_render env content vars w) as Hroe.
  destruct (jinja_render env content vars w) as [[rendered|[e|]] w1] eqn:Ej;
    simpl in Hg1; subst w1.
  - rewrite draw_eq. simpl.
    destruct (mjml_to_html env rendered g1) as [[e|res] g2] eqn:Em; simpl.
    + right. eauto.
    + destruct (errors res) eqn:Ee.
      * left. exists rendered, res, g1, g2. auto.
      * right. eauto.
  - right. eauto.
  - exfalso. now apply (Hroe (with_rng w g1)).
Qed.

Lemma render_template_ok content (vars : Context) rendered res g1 g2 w :
  jinja_render env content vars w = (Return rendered, with_rng w g1) ->
  mjml_to_html env rendered g1 = (inr res, g2) -> errors res = [] ->
  _render_template env content vars w = (Return (html res), with_rng w g2).
Proof.
  intros Hj Hm He. unfold _render_template, bind.
  rewrite Hj, draw_eq. simpl. rewrite Hm. simpl. now rewrite He.
Qed.

(** The [try] block either raises an [Exception] before the transport is
    reached, or hands one message to the transport and ends as the
    transport decides. *)
Lemma send_email_body_outcome to_email subject path vars atts cc bcc w :
  (exists e g,
     send_email_body env self to_email subject path vars atts cc bcc w
       = (Raise (Exc e), with_rng w g)) \/
  (exists content rendered res contents g1 g2,
     fs w !! path = Some (File content) /\
     jinja_render env content vars w = (Return rendered, with_rng w g1) /\
     mjml_to_html env rendered g1 = (inr res, g2) /\ errors res = [] /\
     holds_files w (default [] atts) contents /\
     let msg := message_with env self to_email subject (html res)
                  atts cc bcc contents in
     send_email_body env self to_email subject path vars atts cc bcc w =
       (match smtp_send env (smtp_calls w) msg with
        | None => Return true
        | Some e => Raise e
        end, with_call (with_rng w g2) msg)).
Proof.
  unfold send_email_body.
  destruct (load_outcome path w) as [(content & Hc & Hl)|[e Hl]].
  2:{ left. exists e, (rng w). rewrite with_rng_same.
      now rewrite (bind_Raise _ _ _ _ _ Hl). }
  rewrite (bind_Return _ _ _ _ _ Hl).
  destruct (render_template_outcome content vars w)
    as [(rendered & res & g1 & g2 & Hj & Hm & He & Hr)|(e & g & Hr)].
  2:{ left. exists e, g. now rewrite (bind_Raise _ _ _ _ _ Hr). }
  rewrite (bind_Return _ _ _ _ _ Hr).
  destruct (create_message_outcome env self to_email subject (html res)
              atts cc bcc (with_rng w g2))
    as [(contents & Hf & Hcm)|[e Hcm]].
  2:{ left. exists e, g2. now rewrite (bind_Raise _ _ _ _ _ Hcm). }
  rewrite (bind_Return _ _ _ _ _ Hcm).
  right. exists content, rendered, res, contents, g1, g2.
  repeat (split; [assumption|]). simpl.
  unfold bind, aiosmtplib_send, with_call. simpl.
  destruct (smtp_send env (smtp_calls w) _); reflexivity.
Qed.

(** What [send_email] does, by outcome: delivered, failed before the
    transport, rejected by the transport, or cancelled at the transport. *)
Lemma send_email_outcome to_email subject path vars atts cc bcc w :
  (exists msg g,
     msg_to msg = to_email /\ msg_subject msg = subject /\
     smtp_send env (smtp_calls w) msg = None /\
     send_email env self to_email subject path vars atts cc bcc w
       = (Return true, with_call (with_rng w g) msg)) \/
  (exists e g,
     send_email env self to_email subject path vars atts cc bcc w
       = (Return false, with_line (with_rng w g) (error_line to_email e))) \/
  (exists msg e g,
     msg_to msg = to_email /\ msg_subject msg = subject /\
     smtp_send env (smtp_calls w) msg = Some (Exc e) /\
     send_email env self to_email subject path vars atts cc bcc w
       = (Return false,
          with_line (with_call (with_rng w g) msg) (error_line to_email e)))
  \/
  (exists msg g,
     msg_to msg = to_email /\ msg_subject msg = subject /\
     smtp_send env (smtp_calls w) msg = Some CancelledError /\
     send_email env self to_email subject path vars atts cc bcc w
       = (Raise CancelledError, with_call (with_rng w g) msg)).
Proof.
  unfold send_email, try_except.
  destruct (send_email_body_outcome to_email subject path vars atts cc bcc w)
    as [(e & g & Hb)
       |(content & rendered & res & contents & g1 & g2
         & _ & _ & _ & _ & _ & Hb)].
  - right. left. exists e, g. rewrite Hb. reflexivity.
  - simpl in Hb. rewrite Hb.
    set (msg := message_with env self to_email subject (html res)
                  atts cc bcc contents).
    destruct (smtp_send env (smtp_calls w) msg) as [[e|]|] eqn:Es.
    + right. right. left. exists msg, e, g2. repeat split; auto.
    + right. right. right. exists msg, g2. repeat split; auto.
    + left. exists msg, g2. repeat split; auto.
Qed.

Lemma send_email_missing_template to_email subject path vars atts cc bcc w :
  fs w !! path = None ->
  send_email env self to_email subject path vars atts cc bcc w =
    (Return false,
     with_line w
       (error_line to_email
          (FileNotFoundError ("Template no encontrado: " ++ path)))).
Proof.
  intros H. unfold send_email, try_except, send_email_body.
  rewrite (bind_Raise _ _ _ _ _ (load_missing path w H)). reflexivity.
Qed.

End SingleSend.

(** ** Bulk send: gathering and classification *)

Lemma classify_spec {T} (pairs : list ((string * T) * Result bool)) :
  forall s f,
    classify pairs s f =
      {| success := s ++ delivered_of pairs; failed := f ++ failed_of pairs |}.
Proof.
  unfold delivered_of, failed_of.
  induction pairs as [|[[email t] r] pairs IH]; intros s f; simpl.
  - now rewrite !app_nil_r.
  - rewrite !filter_cons. simpl. destruct (is_True r) eqn:E.
    + rewrite IH. repeat case_decide; try (exfalso; simpl in *; tauto).
      simpl. now rewrite <- app_assoc.
    + rewrite IH. repeat case_decide; try (exfalso; simpl in *; tauto).
      simpl. now rewrite <- app_assoc.
Qed.

Lemma delivered_failed_perm {T} (pairs : list ((string * T) * Result bool)) :
  delivered_of pairs ++ failed_of pairs ≡ₚ pairs.*1.*1.
Proof.
  unfold delivered_of, failed_of. rewrite <- !fmap_app.
  now rewrite filter_app_complement.
Qed.

Lemma delivered_of_cons {T} email (t : T) r pairs :
  delivered_of ((email, t, r) :: pairs) =
    if is_True r then email :: delivered_of pairs else delivered_of pairs.
Proof.
  unfold delivered_of. rewrite filter_cons. simpl.
  destruct (is_True r); case_decide; simpl in *; tauto.
Qed.

Lemma failed_of_cons {T} email (t : T) r pairs :
  failed_of ((email, t, r) :: pairs) =
    if is_True r then failed_of pairs else email :: failed_of pairs.
Proof.
  unfold failed_of. rewrite filter_cons. simpl.
  destruct (is_True r); case_decide; simpl in *; tauto.
Qed.

Lemma gather_cons {A} (task : M A) rest w r w1 results w2 :
  task w = (r, w1) -> gather rest w1 = (Return results, w2) ->
  gather (task :: rest) w = (Return (r :: results), w2).
Proof. intros H1 H2. simpl. now rewrite H1, H2. Qed.

(** [gather] never raises and settles every task: the outcome at each
    position is what that task did in the world left by the tasks before
    it. *)
Lemma gather_spec {A} (tasks : list (M A)) : forall w,
  exists results,
    gather tasks w = (Return results, world_after tasks w) /\
    length results = length tasks /\
    forall i task,
      tasks !! i = Some task ->
      results !! i = Some (fst (task (world_after (take i tasks) w))).
Proof.
  induction tasks as [|task tasks IH]; intros w.
  - exists []. repeat split; auto. intros i t H. inversion H.
  - destruct (IH (snd (task w))) as (rs & Hg & Hlen & Hres).
    exists (fst (task w) :: rs). split; [|split].
    + apply gather_cons with (w1 := snd (task w)); [|exact Hg].
      now destruct (task w).
    + simpl. now rewrite Hlen.
    + intros [|i] t Ht; simpl in *.
      * now inversion Ht.
      * now apply Hres.
Qed.


Lemma dispatch_spec (tasks : list (string * M bool)) w :
  exists results w',
    gather (map snd tasks) w = (Return results, w') /\
    length results = length tasks /\
    dispatch tasks w =
      (Return {| success := delivered_of (zip tasks results);
                 failed := failed_of (zip tasks results) |}, w').
Proof.
  destruct (gather_spec (map snd tasks) w) as (results & Hg & Hlen & _).
  exists results, (world_after (map snd tasks) w).
  revert Hg Hlen. generalize (world_after (map snd tasks) w) as w'.
  intros w' Hg Hlen.
  rewrite length_map in Hlen.
  repeat split; auto.
  unfold dispatch. rewrite (bind_Return _ _ _ _ _ Hg).
  unfold ret. now rewrite classify_spec.
Qed.

Section BulkSend.

Variable env : Env.
Variable self : EmailSender.

Lemma build_tasks_Return recipients subject path atts : forall acc tasks,
  build_tasks env self recipients subject path atts acc = Return tasks ->
  exists new,
    tasks = (acc ++ new)%list /\
    Forall2 (task_of env self subject path atts) recipients new /\
    new.*1 = addresses recipients.
Proof.
  induction recipients as [|r rs IH]; intros acc tasks H; simpl in H.
  - inversion H; subst. exists []. rewrite app_nil_r.
    repeat split; auto.
  - destruct (rec_email r) as [email|] eqn:Ee; [|discriminate].
    destruct (rendered_subject env subject (get_variables r))
      as [subject'|e] eqn:Es; [|discriminate].
    apply IH in H as (new & -> & HF & Hfst).
    eexists (_ :: new). rewrite <- app_assoc. simpl.
    repeat split.
    + constructor; [|assumption]. exists email, subject'. auto.
    + unfold addresses. simpl. rewrite Ee. simpl. f_equal. exact Hfst.
Qed.



Lemma send_bulk_emails_unfold recipients subject path atts w :
  send_bulk_emails env self recipients subject path atts w =
    match build_tasks env self recipients subject path atts [] with
    | Return tasks => dispatch tasks w
    | Raise e => (Raise e, w)
    end.
Proof.
  unfold send_bulk_emails, bind, lift.
  destruct (build_tasks env self recipients subject path atts []); reflexivity.
Qed.

End BulkSend.




(** What a returning bulk call has done, in terms of its tasks. *)
Lemma send_bulk_emails_Return env self recipients subject path atts w res w' :
  send_bulk_emails env self recipients subject path atts w
    = (Return res, w') ->
  exists tasks results,
    Forall2 (task_of env self subject path atts) recipients tasks /\
    tasks.*1 = addresses recipients /\
    gather (map snd tasks) w = (Return results, w') /\
    length results = length tasks /\
    res = {| success := delivered_of (zip tasks results);
             failed := failed_of (zip tasks results) |}.
Proof.
  intros H. rewrite send_bulk_emails_unfold in H.
  destruct (build_tasks env self recipients subject path atts [])
    as [tasks|e] eqn:Hb; [|discriminate].
  apply build_tasks_Return in Hb as (new & -> & HF & Hfst). simpl in H.
  destruct (dispatch_spec new w) as (results & w1 & Hg & Hlen & Hd).
  rewrite Hd in H. inversion H; subst.
  exists new, results. auto.
Qed.

Section BulkEffects.

Variable env : Env.
Variable self : EmailSender.
Variable path : string.
Variable atts : option (list string).

Lemma task_of_send_task subject recipients tasks :
  Forall2 (task_of env self subject path atts) recipients tasks ->
  Forall (send_task env self path atts) tasks.
Proof.
  induction 1 as [|r t rs ts (email & subject' & _ & _ & ->) _ IH];
    constructor; [|exact IH].
  exists subject', (get_variables r). reflexivity.
Qed.

(** The effects of the gathered sends, added up. *)
Lemma gather_send_tasks tasks :
  Forall (send_task env self path atts) tasks ->
  forall w, exists results calls lines w',
    gather (map snd tasks) w = (Return results, w') /\
    fs w' = fs w /\
    smtp_calls w' = (smtp_calls w ++ calls)%list /\
    stdout w' = (stdout w ++ lines)%list /\
    (length lines <= length (failed_of (zip tasks results)))%nat /\
    ((forall history msg, smtp_send env history msg <> Some CancelledError) ->
     length lines = length (failed_of (zip tasks results))) /\
    (length (delivered_of (zip tasks results)) <= length calls)%nat /\
    (length calls <= length tasks)%nat /\
    Forall (fun m => msg_to m ∈ tasks.*1) calls /\
    (forall a, a ∈ delivered_of (zip tasks results) ->
       exists m, m ∈ calls /\ msg_to m = a).
Proof.
  induction 1 as [|[email task] tasks (subject & vars & Ht) _ IH]; intros w.
  - exists [], [], [], w. simpl. rewrite !app_nil_r.
    repeat split; auto. intros a Ha. inversion Ha.
  - simpl in Ht. subst task.
    destruct (send_email_outcome env self email subject path vars atts
                None None w)
      as [(msg & g & Hto & _ & _ & Hs)
         |[(e & g & Hs)
          |[(msg & e & g & Hto & _ & _ & Hs)
           |(msg & g & Hto & _ & Hc & Hs)]]].
    + destruct (IH (with_call (with_rng w g) msg))
        as (results & calls & lines & w' & Hg & Hfs & Hcalls & Hout & Hle
            & Hlines & Hdel & Hlen & Hall & Hmsg).
      exists (Return true :: results), (msg :: calls), lines, w'.
      split; [exact (gather_cons _ _ _ _ _ _ _ Hs Hg)|].
      simpl zip. rewrite delivered_of_cons, failed_of_cons. simpl.
      simpl in Hcalls. rewrite <- app_assoc in Hcalls.
      repeat split; auto; try lia.
      * constructor; [rewrite Hto; left|].
        eapply Forall_impl; [exact Hall|]. intros m Hm. now right.
      * intros a Ha. apply elem_of_cons in Ha as [->|Ha].
        -- exists msg. split; [left|exact Hto].
        -- destruct (Hmsg a Ha) as (m & Hm & Hma). exists m.
           split; [now right|exact Hma].
    + destruct (IH (with_line (with_rng w g) (error_line email e)))
        as (results & calls & lines & w' & Hg & Hfs & Hcalls & Hout & Hle
            & Hlines & Hdel & Hlen & Hall & Hmsg).
      exists (Return false :: results), calls,
        (error_line email e :: lines), w'.
      split; [exact (gather_cons _ _ _ _ _ _ _ Hs Hg)|].
      simpl zip. rewrite delivered_of_cons, failed_of_cons. simpl.
      simpl in Hout. rewrite <- app_assoc in Hout.
      repeat split; auto; try lia.
      * eapply Forall_impl; [exact Hall|]. intros m Hm. now right.
    + destruct (IH (with_line (with_call (with_rng w g) msg)
                      (error_line email e)))
        as (results & calls & lines & w' & Hg & Hfs & Hcalls & Hout & Hle
            & Hlines & Hdel & Hlen & Hall & Hmsg).
      exists (Return false :: results), (msg :: calls),
        (error_line email e :: lines), w'.
      split; [exact (gather_cons _ _ _ _ _ _ _ Hs Hg)|].
      simpl zip. rewrite delivered_of_cons, failed_of_cons. simpl.
      simpl in Hout, Hcalls. rewrite <- app_assoc in Hout, Hcalls.
      repeat split; auto; try lia.
      * constructor; [rewrite Hto; left|].
        eapply Forall_impl; [exact Hall|]. intros m Hm. now right.
      * intros a Ha. destruct (Hmsg a Ha) as (m & Hm & Hma). exists m.
        split; [now right|exact Hma].
    + destruct (IH (with_call (with_rng w g) msg))
        as (results & calls & lines & w' & Hg & Hfs & Hcalls & Hout & Hle
            & Hlines & Hdel & Hlen & Hall & Hmsg).
      exists (Raise CancelledError :: results), (msg :: calls), lines, w'.
      split; [exact (gather_cons _ _ _ _ _ _ _ Hs Hg)|].
      simpl zip. rewrite delivered_of_cons, failed_of_cons. simpl.
      simpl in Hcalls. rewrite <- app_assoc in Hcalls.
      repeat split; auto; try lia.
      * intros. exfalso.
        match goal with
        | Hno : forall _ _, _ <> _ |- _ => exact (Hno _ _ Hc)
        end.
      * constructor; [rewrite Hto; left|].
        eapply Forall_impl; [exact Hall|]. intros m Hm. now right.
      * intros a Ha. destruct (Hmsg a Ha) as (m & Hm & Hma). exists m.
        split; [now right|exact Hma].
Qed.

(** Without the template file every gathered send fails before it reaches
    the transport. *)
Lemma gather_missing_template tasks :
  Forall (send_task env self path atts) tasks ->
  forall w, fs w !! path = None ->
  exists results w',
    gather (map snd tasks) w = (Return results, w') /\
    smtp_calls w' = smtp_calls w /\
    delivered_of (zip tasks results) = [] /\
    failed_of (zip tasks results) = tasks.*1.
Proof.
  induction 1 as [|[email task] tasks (subject & vars & Ht) _ IH];
    intros w Hw.
  - exists [], w. auto.
  - simpl in Ht. subst task.
    pose proof (send_email_missing_template env self email subject path vars
                  atts None None w Hw)
      as Hs.
    destruct (IH (with_line w
                    (error_line email
                       (FileNotFoundError
                          ("Template no encontrado: " ++ path)))) Hw)
      as (results & w' & Hg & Hcalls & Hdel & Hfail).
    exists (Return false :: results), w'.
    split; [exact (gather_cons _ _ _ _ _ _ _ Hs Hg)|].
    simpl zip. rewrite delivered_of_cons, failed_of_cons. simpl.
    rewrite Hfail. auto.
Qed.

End BulkEffects.

(** ** Placeholders of the template *)

Lemma jinja_name_not_reserved inner x :
  jinja_name inner = Some x -> x ∉ jinja_reserved.
Proof.
  unfold jinja_name.
  destruct (is_identifier (strip_spaces inner)); simpl; [|discriminate].
  case_bool_decide as Hres; simpl; [discriminate|].
  intros [= <-]. exact Hres.
Qed.

Lemma jinja_parse_data_eq c r :
  jinja_parse (String c r) None =
    if is_char c "{" then
      match r with
      | String d r' =>
          if is_char d "{" then jinja_parse r' (Some EmptyString)
          else if is_char d "%" || is_char d "#" then None
          else cons (JData c) <$> jinja_parse r None
      | EmptyString => Some [JData c]
      end
    else if is_char c "013" then None
    else if is_char c "010" then
      match r with
      | EmptyString => Some []
      | _ => cons (JData c) <$> jinja_parse r None
      end
    else cons (JData c) <$> jinja_parse r None.
Proof. destruct r; reflexivity. Qed.

Lemma jinja_parse_expr_eq c r acc :
  jinja_parse (String c r) (Some acc) =
    if is_char c "}" then
      match r with
      | String d r' =>
          if is_char d "}" then
            match jinja_name acc with
            | Some x => cons (JName x) <$> jinja_parse r' None
            | None => None
            end
          else jinja_parse r (Some (snoc_char acc c))
      | EmptyString => None
      end
    else jinja_parse r (Some (snoc_char acc c)).
Proof. destruct r; reflexivity. Qed.

(** Every placeholder of a parsed template is a plain variable name. *)
Lemma jinja_parse_names : forall n s expr nodes,
  (String.length s <= n)%nat ->
  jinja_parse s expr = Some nodes ->
  forall x, x ∈ jinja_placeholders nodes -> x ∉ jinja_reserved.
Proof.
  induction n as [|n IH]; intros s expr nodes Hlen H x Hx.
  - destruct s; [|simpl in Hlen; lia].
    destruct expr; simpl in H; [discriminate|].
    inversion H; subst. inversion Hx.
  - destruct s as [|c r].
    { destruct expr; simpl in H; [discriminate|].
      inversion H; subst. inversion Hx. }
    simpl in Hlen.
    assert (Hdata : forall c0 l,
              cons (JData c0) <$> jinja_parse r None = Some l ->
              forall y, y ∈ jinja_placeholders l -> y ∉ jinja_reserved).
    { intros c0 l Hl y Hy.
      destruct (jinja_parse r None) as [l'|] eqn:El; [|discriminate].
      simpl in Hl. inversion Hl; subst.
      apply (IH r None l'); [lia|exact El|exact Hy]. }
    destruct expr as [acc|].
    + rewrite jinja_parse_expr_eq in H.
      destruct (is_char c "}").
      * destruct r as [|d r']; [discriminate|].
        destruct (is_char d "}").
        -- destruct (jinja_name acc) as [y|] eqn:En; [|discriminate].
           destruct (jinja_parse r' None) as [l'|] eqn:El; [|discriminate].
           simpl in H. inversion H; subst. simpl in Hx.
           apply elem_of_cons in Hx as [->|Hx].
           ++ eapply jinja_name_not_reserved; eauto.
           ++ apply (IH r' None l'); [simpl in Hlen; lia|exact El|exact Hx].
        -- eapply IH; [|exact H|exact Hx]; simpl in *; lia.
      * eapply IH; [|exact H|exact Hx]; simpl in *; lia.
    + rewrite jinja_parse_data_eq in H.
      destruct (is_char c "{").
      * destruct r as [|d r'].
        { inversion H; subst. inversion Hx. }
        destruct (is_char d "{").
        -- eapply IH; [|exact H|exact Hx]; simpl in *; lia.
        -- destruct (is_char d "%" || is_char d "#"); [discriminate|].
           eapply Hdata; eauto.
      * destruct (is_char c "013"); [discriminate|].
        destruct (is_char c "010").
        -- destruct r as [|d r'].
           { inversion H; subst. inversion Hx. }
           eapply Hdata; eauto.
        -- eapply Hdata; eauto.
Qed.

(** A variable that is not in the context prints as a variable bound to
    the empty string. *)
Lemma jinja_nodes_undefined (ctx : Context) x nodes :
  ctx !! x = None ->
  jinja_nodes (<[x := VStr EmptyString]> ctx) nodes = jinja_nodes ctx nodes.
Proof.
  intros Hx. induction nodes as [|[c|y] nodes IH]; simpl.
  - reflexivity.
  - now rewrite IH.
  - rewrite IH. f_equal.
    destruct (decide (x = y)) as [->|Hne].
    + rewrite lookup_insert_eq, Hx. reflexivity.
    + now rewrite lookup_insert_ne.
Qed.

Lemma jinja_nodes_agree (ctx1 ctx2 : Context) nodes :
  (forall x, x ∈ jinja_placeholders nodes -> ctx1 !! x = ctx2 !! x) ->
  jinja_nodes ctx1 nodes = jinja_nodes ctx2 nodes.
Proof.
  induction nodes as [|[c|y] nodes IH]; intros H; simpl.
  - reflexivity.
  - rewrite IH; [reflexivity|]. exact H.
  - rewrite (H y) by (simpl; left).
    rewrite IH; [reflexivity|]. intros x Hx. apply H. simpl. now right.
Qed.

(** ** Fields of the subject *)

Lemma fmt_lex_text_eq c r :
  fmt_lex (String c r) None =
    if is_char c "{" then
      match r with
      | String d r' =>
          if is_char d "{" then FLit "{" (fmt_lex r' None)
          else fmt_lex r (Some EmptyString)
      | EmptyString =>
          FError (ValueError "Single '{' encountered in format string")
      end
    else if is_char c "}" then
      match r with
      | String d r' =>
          if is_char d "}" then FLit "}" (fmt_lex r' None)
          else FError (ValueError "Single '}' encountered in format string")
      | EmptyString =>
          FError (ValueError "Single '}' encountered in format string")
      end
    else FLit c (fmt_lex r None).
Proof. destruct r; reflexivity. Qed.

(** A format string with a replacement field contains an opening brace. *)
Lemma fmt_fields_brace : forall n s,
  (String.length s <= n)%nat ->
  fmt_fields (fmt_lex s None) <> [] ->
  contains_char "{" s = true.
Proof.
  induction n as [|n IH]; intros s Hlen H.
  - destruct s; [|simpl in Hlen; lia]. simpl in H. contradiction.
  - destruct s as [|c r]; [simpl in H; contradiction|].
    simpl in Hlen. rewrite fmt_lex_text_eq in H.
    change (contains_char "{" (String c r))
      with (is_char c "{" || contains_char "{" r).
    destruct (is_char c "{"); [reflexivity|]. simpl.
    destruct (is_char c "}").
    + destruct r as [|d r']; [simpl in H; contradiction|].
      destruct (is_char d "}"); [|simpl in H; contradiction].
      simpl in H.
      change (contains_char "{" (String d r'))
        with (is_char d "{" || contains_char "{" r').
      rewrite (IH r'); [apply orb_true_r| simpl in Hlen; lia | exact H].
    + simpl in H. apply IH; [lia|exact H].
Qed.

(** What [str.format] returns on the fragment is the text with the values
    substituted. *)
Lemma fmt_eval_subst (ctx : Context) : forall t s,
  fmt_eval t ctx = Some (Return s) -> s = fmt_subst t ctx.
Proof.
  induction t as [|c t IH|x t IH|e|]; intros s H; simpl in *.
  - now inversion H.
  - destruct (fmt_eval t ctx) as [[s'|e]|]; inversion H; subst.
    now rewrite (IH s').
  - destruct (ctx !! x) as [v|]; [|discriminate].
    destruct (fmt_eval t ctx) as [[s'|e]|]; inversion H; subst.
    now rewrite (IH s').
  - discriminate.
  - discriminate.
Qed.

Lemma fmt_eval_present (ctx : Context) : forall t,
  fmt_complete t = true ->
  Forall (fun x => is_Some (ctx !! x)) (fmt_fields t) ->
  fmt_eval t ctx = Some (Return (fmt_subst t ctx)).
Proof.
  induction t as [|c t IH|x t IH|e|]; intros Hc Hf; simpl in *;
    try discriminate.
  - reflexivity.
  - now rewrite (IH Hc Hf).
  - inversion Hf as [|? ? [v Hv] Hrest]; subst. rewrite Hv.
    now rewrite (IH Hc Hrest).
Qed.

Lemma fmt_eval_first_missing (ctx : Context) : forall t before x after,
  fmt_fields t = (before ++ x :: after)%list ->
  Forall (fun y => is_Some (ctx !! y)) before ->
  ctx !! x = None ->
  fmt_eval t ctx = Some (Raise (Exc (KeyError x))).
Proof.
  induction t as [|c t IH|y t IH|e|]; intros before x after Hf Hb Hx;
    simpl in *.
  - destruct before; discriminate.
  - now rewrite (IH before x after Hf Hb Hx).
  - destruct before as [|z before]; simpl in Hf; inversion Hf; subst.
    + now rewrite Hx.
    + inversion Hb as [|? ? [v Hv] Hrest]; subst. rewrite Hv.
      now rewrite (IH before x after H1 Hrest Hx).
  - destruct before; discriminate.
  - destruct before; discriminate.
Qed.

(** ** The partition of a bulk send that returns *)

(** Whenever [send_bulk_emails] returns a result for N recipient records,
    every record has an address, the [success] and [failed] lists have
    combined length N and together hold exactly the input addresses.  When
    the input addresses are pairwise distinct, no address is in both lists
    and every input address is in exactly one of them. *)
Lemma send_bulk_emails_partition env self recipients subject path atts
    w res w' :
  send_bulk_emails env self recipients subject path atts w
    = (Return res, w') ->
  length (addresses recipients) = length recipients /\
  (length (success res) + length (failed res))%nat = length recipients /\
  (success res ++ failed res)%list ≡ₚ addresses recipients /\
  (NoDup (addresses recipients) ->
   (forall a, ~ (a ∈ success res /\ a ∈ failed res)) /\
   (forall a, a ∈ addresses recipients ->
      (a ∈ success res /\ a ∉ failed res) \/
      (a ∈ failed res /\ a ∉ success res))).
Proof.
  intros H. rewrite send_bulk_emails_unfold in H.
  destruct (build_tasks env self recipients subject path atts [])
    as [tasks|e] eqn:Hb; [|discriminate].
  apply build_tasks_Return in Hb as (new & -> & HF & Hfst). simpl in H.
  destruct (dispatch_spec new w) as (results & w1 & _ & Hlen & Hd).
  rewrite Hd in H. inversion H; subst res w1; clear H. simpl.
  pose proof (delivered_failed_perm (zip new results)) as Hperm.
  rewrite fst_zip in Hperm by lia. rewrite Hfst in Hperm.
  assert (Hn : length (addresses recipients) = length recipients).
  { rewrite <- Hfst, length_fmap. symmetry. exact (Forall2_length _ _ _ HF). }
  repeat split.
  - exact Hn.
  - rewrite <- length_app, (Permutation_length Hperm). exact Hn.
  - exact Hperm.
  - intros a [Hs Hf]. rewrite <- Hperm in H.
    apply NoDup_app in H as (_ & Hdisj & _). exact (Hdisj a Hs Hf).
  - intros a Ha. rewrite <- Hperm in H, Ha.
    apply NoDup_app in H as (_ & Hdisj & _).
    apply elem_of_app in Ha as [Hs|Hf].
    + left. split; [exact Hs|]. exact (Hdisj a Hs).
    + right. split; [exact Hf|]. intros Hs. exact (Hdisj a Hs Hf).
Qed.

(** * The claims *)

(** ** Single send *)

(** C2 fails as stated: when the awaiting task is cancelled during the
    transport call, [send_email] lets [CancelledError] through. *)
Lemma send_email_lets_cancellation_through :
  fst (send_email Fixtures.env_cancelled Fixtures.sender "a@example.com"
         "Status - A" "templates/status.mjml" {[ "name" := VStr "A" ]}
         None None None Fixtures.world)
  = Raise CancelledError /\
  ~ (exists b w',
       send_email Fixtures.env_cancelled Fixtures.sender "a@example.com"
         "Status - A" "templates/status.mjml" {[ "name" := VStr "A" ]}
         None None None Fixtures.world = (Return b, w')).
Proof.
  assert (H : fst (send_email Fixtures.env_cancelled Fixtures.sender
                     "a@example.com" "Status - A" "templates/status.mjml"
                     {[ "name" := VStr "A" ]} None None None Fixtures.world)
              = Raise CancelledError).
  { vm_compute. reflexivity. }
  split; [exact H|]. intros (b & w' & Hb). rewrite Hb in H. discriminate.
Qed.

(** C2, amended. For every input, [send_email] lets no instance of
    [Exception] out to its caller: when the template path does not exist,
    when an attachment path does not exist, when the markup conversion
    reports errors and when the transport call raises an [Exception], it
    returns [False].  The only exception it lets through is
    [CancelledError], and only when it was raised at the awaited transport
    call. *)
Theorem send_email_never_raises env self to_email subject path vars
    atts cc bcc w :
  exists r w',
    send_email env self to_email subject path vars atts cc bcc w = (r, w') /\
    (forall e, r <> Raise (Exc e)) /\
    (r = Raise CancelledError ->
     exists msg,
       smtp_calls w' = (smtp_calls w ++ [msg])%list /\
       smtp_send env (smtp_calls w) msg = Some CancelledError) /\
    (fs w !! path = None -> r = Return false) /\
    (forall l a, atts = Some l -> a ∈ l -> fs w !! a = None ->
       r = Return false) /\
    (forall content rendered res w1 g,
       fs w !! path = Some (File content) ->
       jinja_render env content vars w = (Return rendered, w1) ->
       mjml_to_html env rendered (rng w1) = (inr res, g) ->
       errors res <> [] -> r = Return false) /\
    (forall msg e,
       smtp_calls w' = (smtp_calls w ++ [msg])%list ->
       smtp_send env (smtp_calls w) msg = Some (Exc e) -> r = Return false).
Proof.
  unfold send_email, try_except.
  destruct (send_email_body_outcome env self to_email subject path vars
              atts cc bcc w)
    as [(e & g & Hb)
       |(content & rendered & res & contents & g1 & g2
         & Hc & Hj & Hm & He & Hf & Hb)].
  - rewrite Hb. eexists _, _. split; [reflexivity|].
    repeat split; try discriminate; reflexivity.
  - simpl in Hb. rewrite Hb.
    set (msg := message_with env self to_email subject (html res)
                  atts cc bcc contents) in *.
    assert (Hmissing : forall l a, atts = Some l -> a ∈ l ->
                         fs w !! a = None -> False).
    { intros l a -> Ha Hnone. simpl in Hf.
      apply list_elem_of_lookup in Ha as [i Hi].
      destruct (Forall2_lookup_l _ _ _ _ _ Hf Hi) as (c & _ & Hfile).
      rewrite Hnone in Hfile. discriminate. }
    assert (Herrors : forall content' rendered' res' w1 g,
              fs w !! path = Some (File content') ->
              jinja_render env content' vars w = (Return rendered', w1) ->
              mjml_to_html env rendered' (rng w1) = (inr res', g) ->
              errors res' <> [] -> False).
    { intros content' rendered' res' w1 g Hc' Hj' Hm' He'.
      rewrite Hc in Hc'. inversion Hc'; subst content'.
      rewrite Hj in Hj'. inversion Hj'; subst rendered' w1.
      simpl in Hm'. rewrite Hm in Hm'. inversion Hm'; subst res'.
      contradiction. }
    destruct (smtp_send env (smtp_calls w) msg) as [[e|]|] eqn:Es.
    + eexists _, _. split; [reflexivity|].
      repeat split; try discriminate; reflexivity.
    + eexists _, _. split; [reflexivity|].
      split; [discriminate|]. split; [intros _; exists msg; auto|].
      split; [intros Hn; rewrite Hn in Hc; discriminate|].
      split; [intros l a Hl Ha Hn; destruct (Hmissing l a Hl Ha Hn)|].
      split.
      * intros ? ? ? ? ? H1 H2 H3 H4.
        destruct (Herrors _ _ _ _ _ H1 H2 H3 H4).
      * intros msg' e Hcalls Hs'. simpl in Hcalls.
        apply app_inj_tail in Hcalls as [_ <-].
        rewrite Es in Hs'. discriminate.
    + eexists _, _. split; [reflexivity|].
      split; [discriminate|]. split; [discriminate|].
      split; [intros Hn; rewrite Hn in Hc; discriminate|].
      split; [intros l a Hl Ha Hn; destruct (Hmissing l a Hl Ha Hn)|].
      split.
      * intros ? ? ? ? ? H1 H2 H3 H4.
        destruct (Herrors _ _ _ _ _ H1 H2 H3 H4).
      * intros msg' e Hcalls Hs'. simpl in Hcalls.
        apply app_inj_tail in Hcalls as [_ <-].
        rewrite Es in Hs'. discriminate.
Qed.

Lemma send_email_never_raises_witness :
  fs Fixtures.world !! "templates/missing.mjml" = None /\
  exists w',
    send_email Fixtures.env Fixtures.sender "a@example.com" "Status"
      "templates/missing.mjml" ∅ None None None Fixtures.world
      = (Return false, w').
Proof.
  split; [vm_compute; reflexivity|].
  destruct (send_email_never_raises Fixtures.env Fixtures.sender
              "a@example.com" "Status" "templates/missing.mjml" ∅
              None None None Fixtures.world)
    as (r & w' & Hsend & _ & _ & Hmissing & _).
  exists w'. rewrite Hsend. f_equal. apply Hmissing.
  vm_compute. reflexivity.
Defined.

(** ** Rendering *)

(** C8. For every context, loading and rendering a template whose path does
    not exist fails with the template-not-found error
    ([FileNotFoundError], raised by [_load_mjml_template]) and leaves the
    world as it is. *)
Theorem render_missing_template env path vars w :
  fs w !! path = None ->
  _load_mjml_template path w =
    (Raise (Exc (FileNotFoundError ("Template no encontrado: " ++ path))), w)
  /\
  load_and_render env path vars w =
    (Raise (Exc (FileNotFoundError ("Template no encontrado: " ++ path))), w).
Proof.
  intros H. split.
  - now apply load_missing.
  - unfold load_and_render. erewrite bind_Raise; [reflexivity|].
    now apply load_missing.
Qed.

Lemma render_missing_template_witness :
  load_and_render Fixtures.env "templates/missing.mjml"
    {[ "name" := VStr "Juan" ]} Fixtures.world =
    (Raise (Exc (FileNotFoundError
                   "Template no encontrado: templates/missing.mjml")),
     Fixtures.world).
Proof.
  apply (render_missing_template Fixtures.env "templates/missing.mjml"
           {[ "name" := VStr "Juan" ]} Fixtures.world).
  vm_compute. reflexivity.
Defined.




(** ** Bulk send *)

(** C7. With an empty recipient list [send_bulk_emails] returns empty
    [success] and [failed] lists and leaves the world unchanged: the
    transport is not called, nothing is read or printed. *)
Theorem send_bulk_emails_empty env self subject path atts w :
  send_bulk_emails env self [] subject path atts w =
    (Return {| success := []; failed := [] |}, w) /\
  smtp_calls (snd (send_bulk_emails env self [] subject path atts w))
    = smtp_calls w.
Proof. split; reflexivity. Qed.



(** The spec's scenario: three recipients, the transport rejects B. *)
Example send_bulk_emails_three :
  fst (send_bulk_emails Fixtures.env Fixtures.sender Fixtures.three
         "Status - {name}" "templates/status.mjml" None Fixtures.world)
  = Return {| success := ["a@example.com"; "c@example.com"];
              failed := ["b@example.com"] |}.
Proof. vm_compute. reflexivity. Qed.

(** C1 does not hold of the code: for three records with pairwise distinct
    addresses, one of which lacks the key of the subject, no partition is
    returned at all; [send_bulk_emails] raises [KeyError] from the loop
    that builds the tasks (the defect of C3).  Whenever the call does
    return, the partition is as the claim says. *)
Theorem partition_lost_on_subject_error env self path atts w :
  NoDup (addresses Fixtures.no_name) /\
  length (addresses Fixtures.no_name) = length Fixtures.no_name /\
  (forall res w',
     send_bulk_emails env self Fixtures.no_name "Status - {name}" path atts w
     <> (Return res, w')) /\
  (forall subject res w',
     send_bulk_emails env self Fixtures.no_name subject path atts w
       = (Return res, w') ->
     (length (success res) + length (failed res))%nat = 3%nat /\
     (forall a, ~ (a ∈ success res /\ a ∈ failed res)) /\
     (forall a, a ∈ addresses Fixtures.no_name ->
        (a ∈ success res /\ a ∉ failed res) \/
        (a ∈ failed res /\ a ∉ success res))).
Proof.
  assert (Hnd : NoDup (addresses Fixtures.no_name)).
  { apply (bool_decide_unpack _). vm_compute. exact I. }
  split; [exact Hnd|]. split; [reflexivity|]. split.
  - intros res w' H. rewrite send_bulk_emails_unfold in H.
    vm_compute in H. discriminate.
  - intros subject res w' H.
    destruct (send_bulk_emails_partition _ _ _ _ _ _ _ _ _ H)
      as (_ & Hlen & _ & Hdistinct).
    destruct (Hdistinct Hnd) as [Hdisj Hin]. auto.
Qed.

Lemma partition_lost_on_subject_error_witness :
  exists res w',
    send_bulk_emails Fixtures.env Fixtures.sender Fixtures.no_name
      "Status" "templates/status.mjml" None Fixtures.world
    = (Return res, w') /\
    (length (success res) + length (failed res))%nat = 3%nat.
Proof.
  destruct (send_bulk_emails Fixtures.env Fixtures.sender Fixtures.no_name
              "Status" "templates/status.mjml" None Fixtures.world)
    as [[res|e] w'] eqn:E; [|vm_compute in E; discriminate].
  exists res, w'. split; [reflexivity|].
  destruct (partition_lost_on_subject_error Fixtures.env Fixtures.sender
              "templates/status.mjml" None Fixtures.world)
    as (_ & _ & _ & Hret).
  exact (proj1 (Hret "Status" res w' E)).
Defined.

(** ** Recipient records and the subject line *)

(** C3 does not hold of the code: the subject is formatted in the loop
    that creates the tasks, outside every handler, so a recipient whose
    context lacks a key of the subject makes [send_bulk_emails] raise
    [KeyError] before any task runs; nobody is sent anything and no
    [failed] list is returned. *)
Theorem subject_key_error_aborts_batch env self path atts w :
  send_bulk_emails env self Fixtures.no_name "Status - {name}" path atts w
    = (Raise (Exc (KeyError "name")), w).
Proof. rewrite send_bulk_emails_unfold. reflexivity. Qed.



(** ** Undefined placeholders *)

(** C5 fails as stated: a template with a placeholder that the context
    does not define renders, with nothing in the placeholder's place. *)
Lemma render_undefined_placeholder_succeeds :
  exists nodes,
    jinja_parse Fixtures.template None = Some nodes /\
    "name" ∈ jinja_placeholders nodes /\
    (∅ : Context) !! "name" = None /\
    _render_template Fixtures.env Fixtures.template ∅
      Fixtures.world
    = (Return Fixtures.rendered, Fixtures.world).
Proof.
  eexists. split; [vm_compute; reflexivity|].
  split; [|split; reflexivity].
  apply (bool_decide_unpack _). vm_compute. exact I.
Qed.

(** C5, amended. For a template made of literal text and [{{ name }}]
    placeholders and a context without the key [self], a placeholder whose
    name is not a key of the context does not make the substitution fail:
    it is replaced by the empty text, as if the name were bound to the empty
    string.  Rendering then fails exactly when the markup converter raises
    or reports errors on the substituted text. *)
Theorem undefined_placeholder_renders_empty env src nodes (ctx : Context)
    x w :
  jinja_parse src None = Some nodes ->
  x ∈ jinja_placeholders nodes ->
  ctx !! x = None ->
  ctx !! "self" = None ->
  jinja_node ctx (JName x) = EmptyString /\
  jinja_render env src ctx w = (Return (jinja_nodes ctx nodes), w) /\
  jinja_render env src (<[x := VStr EmptyString]> ctx) w
    = jinja_render env src ctx w /\
  _render_template env src ctx w =
    (match fst (mjml_to_html env (jinja_nodes ctx nodes) (rng w)) with
     | inl e => Raise (Exc e)
     | inr res =>
         match errors res with
         | [] => Return (html res)
         | _ :: _ =>
             Raise (Exc (ValueError
               ("Errores en MJML: [" ++ join ", " (errors res) ++ "]")))
         end
     end,
     with_rng w (snd (mjml_to_html env (jinja_nodes ctx nodes) (rng w)))).
Proof.
  intros Hparse Hx Hundef Hself.
  assert (Hne : x <> "self").
  { intros ->.
    apply (jinja_parse_names _ _ _ _ (le_n _) Hparse "self" Hx).
    apply (bool_decide_unpack _). vm_compute. exact I. }
  assert (Hrender : jinja_render env src ctx w
                    = (Return (jinja_nodes ctx nodes), w)).
  { now apply jinja_render_fragment. }
  repeat split.
  - simpl. now rewrite Hundef.
  - exact Hrender.
  - rewrite Hrender.
    rewrite (jinja_render_fragment env src nodes _ w Hparse)
      by (now rewrite lookup_insert_ne).
    now rewrite jinja_nodes_undefined.
  - unfold _render_template. rewrite (bind_Return _ _ _ _ _ Hrender).
    unfold bind. rewrite draw_eq.
    destruct (fst (mjml_to_html env (jinja_nodes ctx nodes) (rng w)))
      as [e|res]; simpl; [reflexivity|].
    destruct (errors res); reflexivity.
Qed.

Lemma undefined_placeholder_renders_empty_witness :
  exists nodes,
    jinja_parse Fixtures.template None = Some nodes /\
    jinja_render Fixtures.env Fixtures.template ∅ Fixtures.world
      = (Return (jinja_nodes ∅ nodes), Fixtures.world) /\
    jinja_nodes ∅ nodes = Fixtures.rendered.
Proof.
  destruct (jinja_parse Fixtures.template None)
    as [nodes|] eqn:E; [|vm_compute in E; discriminate].
  exists nodes. split; [reflexivity|].
  assert (Hnodes : "name" ∈ jinja_placeholders nodes
                   /\ jinja_nodes ∅ nodes = Fixtures.rendered).
  { vm_compute in E. inversion E; subst nodes. split; [|reflexivity].
    apply (bool_decide_unpack _). vm_compute. exact I. }
  destruct Hnodes as [Hin Htext]. split; [|exact Htext].
  apply (undefined_placeholder_renders_empty Fixtures.env
           Fixtures.template nodes ∅ "name" Fixtures.world
           E Hin); reflexivity.
Defined.

(** ** The effective subject *)

(** C6 fails as stated: a subject with escaped braces has no placeholder,
    yet it is not used verbatim. *)
Lemma subject_escaped_braces_not_verbatim :
  fmt_fields (fmt_lex "Offer {{today}}" None) = [] /\
  rendered_subject Fixtures.env "Offer {{today}}" ∅
    = Return "Offer {today}" /\
  rendered_subject Fixtures.env "Offer {{today}}" ∅
    <> Return "Offer {{today}}".
Proof.
  split; [vm_compute; reflexivity|].
  split; [vm_compute; reflexivity|].
  vm_compute. discriminate.
Qed.

(** C6, amended. The effective subject of a recipient is decided by the
    presence of the character [{] in the subject template.  With a [{] the
    template is formatted by [str.format] with the recipient's context as
    keyword arguments: on the fragment this puts the context values in
    place of the [{name}] fields and turns doubled braces into single
    ones; every subject with a placeholder is in this case.  Without a [{]
    the template is used verbatim, the same for every recipient.  The task
    of each recipient is created with that subject. *)
Theorem effective_subject env self recipients subject path atts tasks :
  build_tasks env self recipients subject path atts [] = Return tasks ->
  (fmt_fields (fmt_lex subject None) <> [] ->
   contains_char "{" subject = true) /\
  Forall2
    (fun r t =>
       exists email subject',
         rec_email r = Some email /\
         t = (email,
              send_email env self email subject' path (get_variables r)
                atts None None) /\
         (contains_char "{" subject = false -> subject' = subject) /\
         (contains_char "{" subject = true ->
          str_format env subject (get_variables r) = Return subject' /\
          (forall s,
             fmt_eval (fmt_lex subject None) (get_variables r)
               = Some (Return s) ->
             subject' = fmt_subst (fmt_lex subject None) (get_variables r))))
    recipients tasks.
Proof.
  intros Hb. split.
  - apply (fmt_fields_brace _ _ (le_n _)).
  - apply build_tasks_Return in Hb as (new & -> & HF & _). simpl.
    eapply Forall2_impl; [exact HF|].
    intros r t (email & subject' & He & Hs & ->).
    exists email, subject'. split; [exact He|]. split; [reflexivity|].
    unfold rendered_subject in Hs. split.
    + intros Hno. rewrite Hno in Hs. now inversion Hs.
    + intros Hyes. rewrite Hyes in Hs. split; [exact Hs|].
      intros s Heval. unfold str_format in Hs. rewrite Heval in Hs.
      inversion Hs; subst. now apply fmt_eval_subst.
Qed.

Lemma effective_subject_witness :
  exists tasks,
    build_tasks Fixtures.env Fixtures.sender Fixtures.three
      "Status - {name}" "templates/status.mjml" None [] = Return tasks /\
    tasks.*1 = ["a@example.com"; "b@example.com"; "c@example.com"] /\
    length tasks = 3%nat.
Proof.
  destruct (build_tasks Fixtures.env Fixtures.sender Fixtures.three
              "Status - {name}" "templates/status.mjml" None [])
    as [tasks|e] eqn:E; [|vm_compute in E; discriminate].
  exists tasks. split; [reflexivity|].
  pose proof (effective_subject _ _ _ _ _ _ _ E) as [_ HF].
  split.
  - apply build_tasks_Return in E as (new & -> & _ & Hfst). exact Hfst.
  - symmetry. exact (Forall2_length _ _ _ HF).
Defined.

(** * Further properties of the code *)

(** ** Building the message *)

(** X1. [_create_message] never changes the world.  It returns exactly
    when every attachment path is a regular file, and the message it
    returns has the given headers, the HTML body as its first part and
    then one part per attachment, in the order of the list, holding the
    file's name and content. *)
Theorem create_message_builds env self to_email subject body atts cc bcc w :
  snd (_create_message env self to_email subject body atts cc bcc w) = w /\
  (forall msg w',
     _create_message env self to_email subject body atts cc bcc w
       = (Return msg, w') <->
     w' = w /\ exists contents,
       holds_files w (default [] atts) contents /\
       msg = message_with env self to_email subject body atts cc bcc
               contents) /\
  (forall msg w',
     _create_message env self to_email subject body atts cc bcc w
       = (Return msg, w') ->
     length (msg_parts msg) = S (length (default [] atts)) /\
     head (msg_parts msg) = Some (HtmlPart body)).
Proof.
  split; [apply create_message_world|].
  split; [intros msg w'; apply create_message_spec|].
  intros msg w' H.
  apply create_message_spec in H as (_ & contents & Hc & ->).
  simpl. split; [|reflexivity].
  rewrite length_zip_with_l_eq; [reflexivity|].
  exact (Forall2_length _ _ _ Hc).
Qed.

Lemma create_message_builds_witness :
  exists msg,
    _create_message Fixtures.env Fixtures.sender "a@example.com" "Status"
      "<p>Hello</p>" (Some ["docs/terms.pdf"]) None None Fixtures.world
      = (Return msg, Fixtures.world) /\
    msg_parts msg =
      [HtmlPart "<p>Hello</p>"; AttachmentPart "docs/terms.pdf" "%PDF"].
Proof.
  eexists. split.
  - apply (create_message_builds Fixtures.env Fixtures.sender "a@example.com"
             "Status" "<p>Hello</p>" (Some ["docs/terms.pdf"]) None None
             Fixtures.world).
    split; [reflexivity|]. exists ["%PDF"]. split; [|reflexivity].
    repeat constructor.
  - reflexivity.
Defined.

(** X2. When an attachment path does not exist and every path before it
    in the list is a regular file, [_create_message] raises
    [FileNotFoundError] naming that path, whatever comes after it in the
    list, and leaves the world as it is. *)
Theorem create_message_first_missing env self to_email subject body
    l1 p l2 cc bcc contents w :
  holds_files w l1 contents ->
  fs w !! p = None ->
  _create_message env self to_email subject body
    (Some (l1 ++ p :: l2)%list) cc bcc w
  = (Raise (Exc (FileNotFoundError ("Archivo no encontrado: " ++ p))), w).
Proof.
  intros Hf Hp. unfold _create_message.
  destruct (l1 ++ p :: l2)%list as [|a r] eqn:El.
  - destruct l1; discriminate.
  - rewrite <- El. now apply (attach_files_first_missing env l1 contents).
Qed.

Lemma create_message_first_missing_witness :
  _create_message Fixtures.env Fixtures.sender "a@example.com" "Status"
    "<p>Hello</p>"
    (Some ["docs/terms.pdf"; "docs/absent.pdf"; "docs/also-absent.pdf"])
    None None Fixtures.world
  = (Raise (Exc (FileNotFoundError
                   "Archivo no encontrado: docs/absent.pdf")),
     Fixtures.world).
Proof.
  apply (create_message_first_missing Fixtures.env Fixtures.sender
           "a@example.com" "Status" "<p>Hello</p>" ["docs/terms.pdf"]
           "docs/absent.pdf" ["docs/also-absent.pdf"] None None ["%PDF"]
           Fixtures.world).
  - repeat constructor.
  - reflexivity.
Defined.

(** ** The single send *)

(** X3. [send_email] returns [True] exactly when the template path is a
    regular file, its content renders, the converter reports no error, every
    attachment is a regular file and the transport accepts the message;
    the world is then the old one with that one message handed to the
    transport and the random sources as the rendering left them, and the
    message is the one [_create_message] builds from the converted body. *)
Theorem send_email_true_iff env self to_email subject path vars atts cc bcc
    w w' :
  send_email env self to_email subject path vars atts cc bcc w
    = (Return true, w') <->
  exists content rendered res contents g1 g2,
    fs w !! path = Some (File content) /\
    jinja_render env content vars w = (Return rendered, with_rng w g1) /\
    mjml_to_html env rendered g1 = (inr res, g2) /\ errors res = [] /\
    holds_files w (default [] atts) contents /\
    smtp_send env (smtp_calls w)
      (message_with env self to_email subject (html res) atts cc bcc
         contents) = None /\
    w' = with_call (with_rng w g2)
           (message_with env self to_email subject (html res) atts cc bcc
              contents).
Proof.
  split.
  - intros H. unfold send_email, try_except in H.
    destruct (send_email_body_outcome env self to_email subject path vars
                atts cc bcc w)
      as [(e & g & Hb)|(content & rendered & res & contents & g1 & g2
                        & Hc & Hj & Hm & He & Hf & Hb)].
    + rewrite Hb in H. discriminate.
    + simpl in Hb. rewrite Hb in H.
      exists content, rendered, res, contents, g1, g2.
      repeat (split; [assumption|]).
      destruct (smtp_send env (smtp_calls w) _) as [[e|]|];
        try discriminate.
      split; [reflexivity|]. now inversion H.
  - intros (content & rendered & res & contents & g1 & g2
            & Hc & Hj & Hm & He & Hf & Hs & ->).
    unfold send_email, try_except, send_email_body.
    rewrite (bind_Return _ _ _ _ _ (load_file path content w Hc)).
    rewrite (bind_Return _ _ _ _ _
               (render_template_ok env content vars rendered res g1 g2 w
                  Hj Hm He)).
    assert (Hcm : _create_message env self to_email subject (html res)
                    atts cc bcc (with_rng w g2)
                  = (Return (message_with env self to_email subject (html res)
                               atts cc bcc contents), with_rng w g2)).
    { apply create_message_spec. split; [reflexivity|].
      exists contents. split; [exact Hf|reflexivity]. }
    rewrite (bind_Return _ _ _ _ _ Hcm).
    unfold bind, aiosmtplib_send. simpl. rewrite Hs. reflexivity.
Qed.

Lemma send_email_true_iff_witness :
  exists w',
    send_email Fixtures.env Fixtures.sender "a@example.com" "Status - A"
      "templates/status.mjml" {[ "name" := VStr "A" ]}
      (Some ["docs/terms.pdf"]) None None Fixtures.world
    = (Return true, w') /\
    length (smtp_calls w') = 1%nat.
Proof.
  eexists. split.
  - apply (send_email_true_iff Fixtures.env Fixtures.sender "a@example.com"
             "Status - A" "templates/status.mjml" {[ "name" := VStr "A" ]}
             (Some ["docs/terms.pdf"]) None None Fixtures.world).
    exists Fixtures.template. eexists. eexists. exists ["%PDF"], 0%nat, 0%nat.
    split; [reflexivity|]. split; [vm_compute; reflexivity|].
    split; [reflexivity|]. split; [reflexivity|].
    split; [repeat constructor|]. split; reflexivity.
  - reflexivity.
Defined.

(** X4. Whatever its arguments and its outcome, [send_email] never changes
    the file system, hands at most one message to the transport, addressed
    to [to_email] with the given subject, and keeps the earlier calls and
    printed lines.  It prints nothing when it returns [True] and exactly one
    line, starting with the recipient's address, when it returns [False];
    [True] is returned only after a transport call.  The only exception it
    can raise is [CancelledError], after the transport call and with
    nothing printed. *)
Theorem send_email_effects env self to_email subject path vars atts cc bcc
    w r w' :
  send_email env self to_email subject path vars atts cc bcc w = (r, w') ->
  fs w' = fs w /\
  exists calls lines,
    smtp_calls w' = (smtp_calls w ++ calls)%list /\
    stdout w' = (stdout w ++ lines)%list /\
    (length calls <= 1)%nat /\
    Forall (fun m => msg_to m = to_email /\ msg_subject m = subject) calls /\
    (r = Return true -> length calls = 1%nat /\ lines = []) /\
    (r = Return false ->
     exists e, lines = ["Error al enviar correo a " ++ to_email ++ ": "
                        ++ exn_str e]) /\
    (forall e, r = Raise e ->
       e = CancelledError /\ length calls = 1%nat /\ lines = []).
Proof.
  intros H.
  destruct (send_email_outcome env self to_email subject path vars
              atts cc bcc w)
    as [(msg & g & Ht & Hs & _ & H')
       |[(e & g & H')
        |[(msg & e & g & Ht & Hs & _ & H')
         |(msg & g & Ht & Hs & _ & H')]]];
    rewrite H' in H; inversion H; subst r w'; clear H; simpl;
    (split; [reflexivity|]).
  - exists [msg], []. rewrite app_nil_r.
    repeat split; auto; discriminate.
  - exists [], [error_line to_email e]. rewrite app_nil_r.
    repeat split; auto; try discriminate. eauto.
  - exists [msg], [error_line to_email e].
    repeat split; auto; try discriminate. eauto.
  - exists [msg], []. rewrite app_nil_r.
    repeat split; auto; try discriminate.
    match goal with
    | He : Raise _ = Raise _ |- _ => now inversion He
    end.
Qed.

Lemma send_email_effects_witness :
  exists w' e,
    send_email Fixtures.env Fixtures.sender "a@example.com" "Status"
      "templates/missing.mjml" ∅ None None None Fixtures.world
      = (Return false, w') /\
    stdout w' = ["Error al enviar correo a a@example.com: " ++ exn_str e].
Proof.
  destruct (send_email Fixtures.env Fixtures.sender "a@example.com" "Status"
              "templates/missing.mjml" ∅ None None None Fixtures.world)
    as [r w'] eqn:E.
  destruct (send_email_effects _ _ _ _ _ _ _ _ _ _ _ _ E)
    as (_ & calls & lines & _ & Hout & _ & _ & _ & Hfalse & _).
  assert (Hr : r = Return false).
  { vm_compute in E. now inversion E. }
  destruct (Hfalse Hr) as [e He]. exists w', e.
  split; [now rewrite Hr|]. rewrite Hout, He. reflexivity.
Defined.

(** ** The bulk send *)



(** X6. The [success] and [failed] lists keep the order of the recipient
    list: each is the list of input addresses with some entries left
    out. *)
Theorem send_bulk_emails_keeps_order env self recipients subject path atts
    w res w' :
  send_bulk_emails env self recipients subject path atts w
    = (Return res, w') ->
  success res `sublist_of` addresses recipients /\
  failed res `sublist_of` addresses recipients.
Proof.
  intros H.
  apply send_bulk_emails_Return in H
    as (tasks & results & _ & Hfst & _ & Hlen & ->). simpl.
  rewrite <- Hfst. rewrite <- (fst_zip tasks results) at 2 4 by lia.
  unfold delivered_of, failed_of.
  split; do 2 apply fmap_sublist; apply sublist_filter.
Qed.

Lemma send_bulk_emails_keeps_order_witness :
  exists res,
    fst (send_bulk_emails Fixtures.env Fixtures.sender Fixtures.three
           "Status - {name}" "templates/status.mjml" None Fixtures.world)
      = Return res /\
    success res `sublist_of`
      ["a@example.com"; "b@example.com"; "c@example.com"].
Proof.
  destruct (send_bulk_emails Fixtures.env Fixtures.sender Fixtures.three
              "Status - {name}" "templates/status.mjml" None Fixtures.world)
    as [[res|e] w'] eqn:E; [|vm_compute in E; discriminate].
  exists res. split; [reflexivity|].
  exact (proj1 (send_bulk_emails_keeps_order _ _ _ _ _ _ _ _ _ E)).
Defined.



(** X8. In a bulk send that returns, every address in [success] was
    handed a message of its own to the transport during the call, and every
    message handed to the transport during the call is addressed to one of
    the input addresses. *)
Theorem send_bulk_emails_delivered_sent env self recipients subject path atts
    w res w' :
  send_bulk_emails env self recipients subject path atts w
    = (Return res, w') ->
  exists calls,
    smtp_calls w' = (smtp_calls w ++ calls)%list /\
    (forall a, a ∈ success res -> exists m, m ∈ calls /\ msg_to m = a) /\
    (forall m, m ∈ calls -> msg_to m ∈ addresses recipients).
Proof.
  intros H.
  apply send_bulk_emails_Return in H
    as (tasks & results & HF & Hfst & Hg & Hlen & ->). simpl.
  destruct (gather_send_tasks env self path atts tasks
              (task_of_send_task env self path atts _ _ _ HF) w)
    as (results' & calls & lines & w1 & Hg' & _ & Hcalls & _ & _ & _
        & _ & _ & Hall & Hmsg).
  rewrite Hg in Hg'. inversion Hg'; subst results' w1.
  exists calls. split; [exact Hcalls|]. split; [exact Hmsg|].
  intros m Hm. rewrite <- Hfst.
  exact (proj1 (Forall_forall _ _) Hall m Hm).
Qed.

Lemma send_bulk_emails_delivered_sent_witness :
  exists m,
    m ∈ smtp_calls (snd (send_bulk_emails Fixtures.env Fixtures.sender
                           Fixtures.three "Status - {name}"
                           "templates/status.mjml" None Fixtures.world)) /\
    msg_to m = "c@example.com".
Proof.
  destruct (send_bulk_emails Fixtures.env Fixtures.sender Fixtures.three
              "Status - {name}" "templates/status.mjml" None Fixtures.world)
    as [[res|e] w'] eqn:E; [|vm_compute in E; discriminate].
  destruct (send_bulk_emails_delivered_sent _ _ _ _ _ _ _ _ _ E)
    as (calls & Hcalls & Hdel & _).
  destruct (Hdel "c@example.com") as (m & Hm & Hto).
  { vm_compute in E. inversion E; subst res. simpl.
    apply (bool_decide_unpack _). vm_compute. exact I. }
  exists m. simpl. rewrite Hcalls. split; [|exact Hto].
  apply elem_of_app. now right.
Defined.

(** X9. When the template path does not exist, a bulk send that returns
    reports every input address as failed, in input order, none as
    delivered, and has not called the transport. *)
Theorem send_bulk_emails_missing_template env self recipients subject path
    atts w res w' :
  fs w !! path = None ->
  send_bulk_emails env self recipients subject path atts w
    = (Return res, w') ->
  success res = [] /\ failed res = addresses recipients /\
  smtp_calls w' = smtp_calls w.
Proof.
  intros Hw H.
  apply send_bulk_emails_Return in H
    as (tasks & results & HF & Hfst & Hg & Hlen & ->). simpl.
  destruct (gather_missing_template env self path atts tasks
              (task_of_send_task env self path atts _ _ _ HF) w Hw)
    as (results' & w1 & Hg' & Hcalls & Hdel & Hfail).
  rewrite Hg in Hg'. inversion Hg'; subst results' w1.
  rewrite <- Hfst. auto.
Qed.

Lemma send_bulk_emails_missing_template_witness :
  exists w',
    send_bulk_emails Fixtures.env Fixtures.sender Fixtures.three
      "Status - {name}" "templates/missing.mjml" None Fixtures.world
    = (Return {| success := [];
                 failed := ["a@example.com"; "b@example.com";
                            "c@example.com"] |}, w') /\
    smtp_calls w' = [].
Proof.
  destruct (send_bulk_emails Fixtures.env Fixtures.sender Fixtures.three
              "Status - {name}" "templates/missing.mjml" None Fixtures.world)
    as [[res|e] w'] eqn:E; [|vm_compute in E; discriminate].
  destruct (send_bulk_emails_missing_template Fixtures.env Fixtures.sender
              Fixtures.three "Status - {name}" "templates/missing.mjml" None
              Fixtures.world res w' eq_refl E) as (Hs & Hf & Hc).
  exists w'. split; [|exact Hc].
  destruct res as [s f]. simpl in Hs, Hf. now rewrite Hs, Hf.
Defined.

(** ** Subjects and templates against the context *)

(** X10. For a subject template with a brace that [str.format] reads to
    its end (literal text, doubled braces and [{name}] fields): when every
    field name is a key of the recipient's context the effective subject is
    the template with the values in place of the fields; when some field
    name is not, computing the subject raises [KeyError] for the first such
    field, whatever the fields after it. *)
Theorem subject_formats env subject (ctx : Context) :
  contains_char "{" subject = true ->
  (fmt_complete (fmt_lex subject None) = true ->
   Forall (fun x => is_Some (ctx !! x)) (fmt_fields (fmt_lex subject None)) ->
   rendered_subject env subject ctx
     = Return (fmt_subst (fmt_lex subject None) ctx)) /\
  (forall before x after,
     fmt_fields (fmt_lex subject None) = (before ++ x :: after)%list ->
     Forall (fun y => is_Some (ctx !! y)) before ->
     ctx !! x = None ->
     rendered_subject env subject ctx = Raise (Exc (KeyError x))).
Proof.
  intros Hb. unfold rendered_subject, str_format. rewrite Hb. split.
  - intros Hc Hf. now rewrite (fmt_eval_present ctx _ Hc Hf).
  - intros before x after Hf Hbefore Hx.
    now rewrite (fmt_eval_first_missing ctx _ before x after Hf Hbefore Hx).
Qed.

Lemma subject_formats_witness :
  rendered_subject Fixtures.env "{greeting} {name}, code {{{code}}}"
    {[ "greeting" := VStr "Hola"; "code" := VInt 7 ]}
  = Raise (Exc (KeyError "name")).
Proof.
  refine (proj2 (subject_formats Fixtures.env
                   "{greeting} {name}, code {{{code}}}"
                   {[ "greeting" := VStr "Hola"; "code" := VInt 7 ]} _)
            ["greeting"] "name" ["code"] _ _ _).
  - reflexivity.
  - vm_compute. reflexivity.
  - constructor; [|constructor]. vm_compute. eauto.
  - vm_compute. reflexivity.
Defined.

(** X11. For a template made of literal text and [{{ name }}]
    placeholders, [_render_template] depends on the context only through the
    values of the template's placeholders: two contexts (without a key
    [self]) that agree on them give the same outcome, so variables that the
    template does not mention are ignored. *)
Theorem render_template_uses_placeholders_only env src nodes
    (ctx1 ctx2 : Context) w :
  jinja_parse src None = Some nodes ->
  ctx1 !! "self" = None -> ctx2 !! "self" = None ->
  (forall x, x ∈ jinja_placeholders nodes -> ctx1 !! x = ctx2 !! x) ->
  _render_template env src ctx1 w = _render_template env src ctx2 w.
Proof.
  intros Hp H1 H2 Hagree.
  unfold _render_template.
  rewrite (bind_Return _ _ _ _ _ (jinja_render_fragment env src nodes ctx1 w
                                    Hp H1)).
  rewrite (bind_Return _ _ _ _ _ (jinja_render_fragment env src nodes ctx2 w
                                    Hp H2)).
  now rewrite (jinja_nodes_agree ctx1 ctx2 nodes Hagree).
Qed.

Lemma render_template_uses_placeholders_only_witness :
  _render_template Fixtures.env Fixtures.template
    {[ "name" := VStr "A" ]} Fixtures.world
  = _render_template Fixtures.env Fixtures.template
      {[ "name" := VStr "A"; "balance" := VInt 1250 ]} Fixtures.world.
Proof.
  destruct (jinja_parse Fixtures.template None) as [nodes|] eqn:E;
    [|vm_compute in E; discriminate].
  apply (render_template_uses_placeholders_only Fixtures.env
           Fixtures.template nodes _ _ Fixtures.world E);
    [reflexivity|reflexivity|].
  intros x Hx.
  assert (Hname : x = "name").
  { vm_compute in E. inversion E; subst nodes. simpl in Hx.
    apply list_elem_of_singleton in Hx. exact Hx. }
  subst x. reflexivity.
Defined.

(** X12. A sender built by [__init__] with a non-empty user name never
    produces a message with an empty [From] header: without [from_email]
    (absent or empty) the user name is the sender address, and without
    [from_name] (absent or empty) the header is that address alone. *)
Theorem from_header_of_init env host port user pass tls from_email'
    from_name' to_email subject body atts cc bcc w msg w' :
  user <> EmptyString ->
  _create_message env (init host port user pass tls from_email' from_name')
    to_email subject body atts cc bcc w = (Return msg, w') ->
  msg_from msg <> EmptyString /\
  ((from_email' = None \/ from_email' = Some EmptyString) ->
   (from_name' = None \/ from_name' = Some EmptyString) ->
   msg_from msg = user).
Proof.
  intros Hu H. apply create_message_spec in H as (_ & contents & _ & ->).
  unfold message_with, init. simpl. split.
  - destruct from_name' as [[|c n]|]; try discriminate;
      destruct from_email' as [[|d e]|]; try discriminate; exact Hu.
  - intros [->| ->] [->| ->]; reflexivity.
Qed.

Lemma from_header_of_init_witness :
  exists msg,
    _create_message Fixtures.env
      (init "smtp.example.com" 587 "robot@example.com" "secret" true
         (Some EmptyString) None)
      "a@example.com" "Status" "<p>Hello</p>" None None None Fixtures.world
    = (Return msg, Fixtures.world) /\
    msg_from msg = "robot@example.com".
Proof.
  eexists. split; [reflexivity|].
  refine (proj2 (from_header_of_init Fixtures.env "smtp.example.com" 587
                   "robot@example.com" "secret" true (Some EmptyString) None
                   "a@example.com" "Status" "<p>Hello</p>" None None None
                   Fixtures.world _ Fixtures.world _ eq_refl) _ _).
  - discriminate.
  - now right.
  - now left.
Defined.

(** * Worked examples *)

(** A resolvable placeholder is replaced by its value. *)
Example render_hello_juan :
  jinja_render Fixtures.env "Hello {{name}}" {[ "name" := VStr "Juan" ]}
    Fixtures.world
  = (Return "Hello Juan", Fixtures.world).
Proof. vm_compute. reflexivity. Qed.

(** A complete send: one transport call, nothing printed. *)
Example send_email_delivered :
  send_email Fixtures.env Fixtures.sender "a@example.com" "Status - A"
    "templates/status.mjml" {[ "name" := VStr "A" ]}
    (Some ["docs/terms.pdf"]) (Some ["boss@example.com"]) None
    Fixtures.world
  = (Return true,
     {| fs := fs Fixtures.world;
        smtp_calls :=
          [{| msg_subject := "Status - A";
              msg_to := "a@example.com";
              msg_from := "Robot <robot@example.com>";
              msg_cc := Some "boss@example.com";
              msg_bcc := None;
              msg_parts :=
                [HtmlPart
                   ("<mjml><mj-body><mj-section><mj-column>"
                    ++ "<mj-text>Hello A</mj-text>"
                    ++ "</mj-column></mj-section></mj-body></mjml>");
                 AttachmentPart "docs/terms.pdf" "%PDF"] |}];
        stdout := [];
        rng := 0 |}).
Proof. vm_compute. reflexivity. Qed.

(** A missing attachment: no transport call, one line printed. *)
Example send_email_missing_attachment :
  send_email Fixtures.env Fixtures.sender "a@example.com" "Status - A"
    "templates/status.mjml" {[ "name" := VStr "A" ]}
    (Some ["docs/terms.pdf"; "docs/absent.pdf"]) None None Fixtures.world
  = (Return false,
     {| fs := fs Fixtures.world;
        smtp_calls := [];
        stdout :=
          ["Error al enviar correo a a@example.com: "
           ++ "Archivo no encontrado: docs/absent.pdf"];
        rng := 0 |}).
Proof. vm_compute. reflexivity. Qed.

(** A transport that raises: the call is made, the outcome is [False]. *)
Example send_email_transport_raises :
  fst (send_email Fixtures.env Fixtures.sender "b@example.com" "Status - B"
         "templates/status.mjml" {[ "name" := VStr "B" ]} None None None
         Fixtures.world) = Return false /\
  stdout (snd (send_email Fixtures.env Fixtures.sender "b@example.com"
                 "Status - B" "templates/status.mjml"
                 {[ "name" := VStr "B" ]} None None None Fixtures.world))
  = ["Error al enviar correo a b@example.com: 550 mailbox unavailable"].
Proof. split; vm_compute; reflexivity. Qed.

(** A subject whose only brace is unmatched aborts the batch as well. *)
Example subject_single_brace :
  fst (send_bulk_emails Fixtures.env Fixtures.sender Fixtures.three
         "50% off {" "templates/status.mjml" None Fixtures.world)
  = Raise (Exc (ValueError "Single '{' encountered in format string")).
Proof. vm_compute. reflexivity. Qed.

(** A batch in which one transport call is cancelled: the batch goes on,
    the address is counted as failed and no line is printed for it. *)
Example send_bulk_emails_cancelled :
  fst (send_bulk_emails Fixtures.env_cancelled Fixtures.sender
         Fixtures.three "Status" "templates/status.mjml" None Fixtures.world)
  = Return {| success := [];
              failed := ["a@example.com"; "b@example.com";
                         "c@example.com"] |} /\
  stdout (snd (send_bulk_emails Fixtures.env_cancelled Fixtures.sender
                 Fixtures.three "Status" "templates/status.mjml" None
                 Fixtures.world)) = [].
Proof. split; vm_compute; reflexivity. Qed.
